(** * SeExpr: the [Vec3d] value type and the pattern-matcher test driver

    A shallow embedding of [src/SeExpr/SeVec3d.h] (class [SeExpr2::Vec3d]) and
    of [src/tests/patterns.cpp] (class [PatternExpr], [quit], [main]).

    [Vec3d] stores three C++ [double]s.  The member functions are written once,
    over an interface [Double] of the scalar operations they use, and run on
    two carriers:
    - [R], exact real arithmetic ([Double_R]);
    - [float], IEEE 754 binary64 as the kernel computes it ([Double_b64]).

    Objects live in a store indexed by address; member functions are
    computations in a state monad over that store, so that in-place forms,
    references returned by them and uninitialised storage are what the source
    makes them.

    Left out: of [Vec3d], the conversion to [array&] and the [getValue]
    that returns a pointer, which hand out the storage itself; of the driver,
    [retType] and the walker and examiner members, whose classes are declared
    in headers of the library that are not among the embedded files. *)

From Stdlib Require Import Reals Lra Lia ZArith List String Ascii Bool.
From Stdlib Require Import Floats.
Import ListNotations.

Set Implicit Arguments.

(** ** The scalar type [double] *)

(** The operations of [double] the header uses: literals [0] and [1], the
    four arithmetic operators, unary minus, [sqrt] of <math.h>, and [==]. *)
Class Double (D : Type) : Type := {
  d0    : D;
  d1    : D;
  dadd  : D -> D -> D;
  dsub  : D -> D -> D;
  dmul  : D -> D -> D;
  ddiv  : D -> D -> D;
  dneg  : D -> D;
  dsqrt : D -> D;
  deqb  : D -> D -> bool
}.

Declare Scope dbl_scope.
Delimit Scope dbl_scope with dbl.
Infix "+" := dadd : dbl_scope.
Infix "-" := dsub : dbl_scope.
Infix "*" := dmul : dbl_scope.
Infix "/" := ddiv : dbl_scope.
Notation "- x" := (dneg x) : dbl_scope.
Infix "==" := deqb (at level 70, no associativity) : dbl_scope.

(** A [double] in a condition, [if (len)]: true when it differs from zero. *)
Definition truthy {D} `{Double D} (x : D) : bool := negb (x == d0)%dbl.

(** *** Exact arithmetic *)

Definition Reqb (x y : R) : bool := if Req_dec_T x y then true else false.

#[export] Instance Double_R : Double R := {
  d0 := 0%R;
  d1 := 1%R;
  dadd := Rplus;
  dsub := Rminus;
  dmul := Rmult;
  ddiv := Rdiv;
  dneg := Ropp;
  dsqrt := R_sqrt.sqrt;
  deqb := Reqb
}.

(** *** IEEE 754 binary64 *)

#[export] Instance Double_b64 : Double float := {
  d0 := 0%float;
  d1 := 1%float;
  dadd := PrimFloat.add;
  dsub := PrimFloat.sub;
  dmul := PrimFloat.mul;
  ddiv := PrimFloat.div;
  dneg := PrimFloat.opp;
  dsqrt := PrimFloat.sqrt;
  deqb := PrimFloat.eqb
}.

(** ** Objects, references and the machine state *)

(** The data member [double _vec[3]]. *)
Record Vec3d (D : Type) : Type := mkVec3d {
  _vec0 : D;
  _vec1 : D;
  _vec2 : D
}.

Arguments mkVec3d {D} _ _ _.
Arguments _vec0 {D} _.
Arguments _vec1 {D} _.
Arguments _vec2 {D} _.

(** The three subscripts the header ever writes: [_vec[0]], [_vec[1]],
    [_vec[2]]. *)
Inductive idx : Type := i0 | i1 | i2.

Definition get {D} (v : Vec3d D) (i : idx) : D :=
  match i with
  | i0 => _vec0 v
  | i1 => _vec1 v
  | i2 => _vec2 v
  end.

Definition set {D} (v : Vec3d D) (i : idx) (x : D) : Vec3d D :=
  match i with
  | i0 => mkVec3d x (_vec1 v) (_vec2 v)
  | i1 => mkVec3d (_vec0 v) x (_vec2 v)
  | i2 => mkVec3d (_vec0 v) (_vec1 v) x
  end.

(** Addresses of [Vec3d] objects. *)
Definition loc : Type := nat.

(** What a [const Vec3d &] can be bound to: an object in the store, or a
    temporary returned by value. *)
Inductive cref (D : Type) : Type :=
| Obj (l : loc)
| Tmp (v : Vec3d D).

Arguments Obj {D} _.
Arguments Tmp {D} _.

(** The machine state: the store of objects, the next unused address of
    automatic storage, and the divisors of the floating-point divisions
    executed so far, latest first. *)
Record state (D : Type) : Type := mkState {
  mem  : loc -> Vec3d D;
  sp   : loc;
  divs : list D
}.

Arguments mkState {D} _ _ _.
Arguments mem {D} _ _.
Arguments sp {D} _.
Arguments divs {D} _.

Definition upd {D} (m : loc -> Vec3d D) (l : loc) (v : Vec3d D) : loc -> Vec3d D :=
  fun l' => if Nat.eqb l' l then v else m l'.

(** Computations over the machine state. *)
Definition M (D A : Type) : Type := state D -> A * state D.

Definition ret {D A} (a : A) : M D A := fun s => (a, s).

Definition bind {D A B} (m : M D A) (k : A -> M D B) : M D B :=
  fun s => let (a, s') := m s in k a s'.

Notation "x <- m ;; k" := (bind m (fun x => k))
  (at level 61, m at next level, right associativity).
Notation "m ;; k" := (bind m (fun _ => k))
  (at level 61, right associativity).

(** The value a computation returns, and the state it leaves. *)
Definition result {D A} (m : M D A) (s : state D) : A := fst (m s).
Definition after {D A} (m : M D A) (s : state D) : state D := snd (m s).

Section Machine.
Context {D : Type} `{Double D}.

(** Read [r[i]]. *)
Definition rd (r : cref D) (i : idx) : M D D :=
  fun s =>
    match r with
    | Obj l => (get (mem s l) i, s)
    | Tmp v => (get v i, s)
    end.

(** Write [_vec[i] = x] in the object at [l]. *)
Definition wr (l : loc) (i : idx) (x : D) : M D unit :=
  fun s => (tt, mkState (upd (mem s) l (set (mem s l) i x)) (sp s) (divs s)).

(** The floating-point division [x / y]; the divisor is recorded. *)
Definition fdiv (x y : D) : M D D :=
  fun s => ((x / y)%dbl, mkState (mem s) (sp s) (y :: divs s)).

(** Storage for an automatic object or a temporary: the next unused
    address, whose contents are whatever the store holds there. *)
Definition alloca : M D loc :=
  fun s => (sp s, mkState (mem s) (S (sp s)) (divs s)).

(** The whole object a reference denotes. *)
Definition load (r : cref D) : M D (Vec3d D) :=
  x <- rd r i0 ;; y <- rd r i1 ;; z <- rd r i2 ;; ret (mkVec3d x y z).

End Machine.

(** ** [class Vec3d] (src/SeExpr/SeVec3d.h) *)

Module Vec3d.
Section Members.
Context {D : Type} `{Double D}.
Local Open Scope dbl_scope.

(** *** Constructors and [setValue]: they act on the storage of [this] *)

(** [void setValue(double x, double y, double z)] *)
Definition setValue (this : loc) (x y z : D) : M D unit :=
  wr this i0 x ;; wr this i1 y ;; wr this i2 z.

(** [Vec3d() {}]: the body is empty, nothing is written. *)
Definition ctor_default (this : loc) : M D unit :=
  ret tt.

(** [Vec3d(double v) { setValue(v, v, v); }] *)
Definition ctor_scalar (v : D) (this : loc) : M D unit :=
  setValue this v v v.

(** [Vec3d(double x, double y, double z) { setValue(x, y, z); }] *)
Definition ctor_xyz (x y z : D) (this : loc) : M D unit :=
  setValue this x y z.

(** A temporary [Vec3d(...)]: the constructor runs on fresh automatic
    storage, and the expression denotes the object it leaves there. *)
Definition temporary (ctor : loc -> M D unit) : M D (Vec3d D) :=
  t <- alloca ;; ctor t ;; load (Obj t).

(** The temporaries [Vec3d(x, y, z)] and [Vec3d(v)] as values: [setValue]
    writes all three components, so they do not depend on the storage
    (see [temporary_xyz] and [temporary_scalar] below). *)
Definition Vec3d_xyz (x y z : D) : Vec3d D := mkVec3d x y z.
Definition Vec3d_scalar (v : D) : Vec3d D := Vec3d_xyz v v v.

(** *** Assignment and the compound forms: they write through [this] and
    return [*this] *)

(** [Vec3d &operator=(const Vec3d &v)] *)
Definition op_assign (this : loc) (v : cref D) : M D loc :=
  x <- rd v i0 ;; wr this i0 x ;;
  y <- rd v i1 ;; wr this i1 y ;;
  z <- rd v i2 ;; wr this i2 z ;;
  ret this.

(** [Vec3d &operator*=(double d)] *)
Definition op_mul_assign (this : loc) (d : D) : M D loc :=
  x <- rd (Obj this) i0 ;; wr this i0 (x * d) ;;
  y <- rd (Obj this) i1 ;; wr this i1 (y * d) ;;
  z <- rd (Obj this) i2 ;; wr this i2 (z * d) ;;
  ret this.

(** [Vec3d &operator/=(double d) { *this *= 1/d; return *this; }] *)
Definition op_div_assign (this : loc) (d : D) : M D loc :=
  r <- fdiv d1 d ;;
  op_mul_assign this r ;;
  ret this.

(** [Vec3d &operator+=(const Vec3d &v)] *)
Definition op_add_assign (this : loc) (v : cref D) : M D loc :=
  x <- rd (Obj this) i0 ;; a <- rd v i0 ;; wr this i0 (x + a) ;;
  y <- rd (Obj this) i1 ;; b <- rd v i1 ;; wr this i1 (y + b) ;;
  z <- rd (Obj this) i2 ;; c <- rd v i2 ;; wr this i2 (z + c) ;;
  ret this.

(** [Vec3d &operator-=(const Vec3d &v)] *)
Definition op_sub_assign (this : loc) (v : cref D) : M D loc :=
  x <- rd (Obj this) i0 ;; a <- rd v i0 ;; wr this i0 (x - a) ;;
  y <- rd (Obj this) i1 ;; b <- rd v i1 ;; wr this i1 (y - b) ;;
  z <- rd (Obj this) i2 ;; c <- rd v i2 ;; wr this i2 (z - c) ;;
  ret this.

(** *** The [const] member functions: they read [this] and their argument
    and return by value *)

(** [Vec3d operator-() const] *)
Definition op_neg (this : cref D) : M D (Vec3d D) :=
  x <- rd this i0 ;; y <- rd this i1 ;; z <- rd this i2 ;;
  ret (Vec3d_xyz (- x) (- y) (- z)).

(** [bool operator==(const Vec3d &v) const]; [&&] stops at the first
    component that differs. *)
Definition op_eq (this v : cref D) : M D bool :=
  x <- rd this i0 ;; a <- rd v i0 ;;
  if x == a then
    y <- rd this i1 ;; b <- rd v i1 ;;
    if y == b then
      z <- rd this i2 ;; c <- rd v i2 ;;
      ret (z == c)
    else ret false
  else ret false.

(** [bool operator!=(const Vec3d &v) const]: the negation of [operator==]. *)
Definition op_ne (this v : cref D) : M D bool :=
  e <- op_eq this v ;; ret (negb e).

(** [Vec3d operator*(double d) const] *)
Definition op_mul (this : cref D) (d : D) : M D (Vec3d D) :=
  x <- rd this i0 ;; y <- rd this i1 ;; z <- rd this i2 ;;
  ret (Vec3d_xyz (x * d) (y * d) (z * d)).

(** [Vec3d operator/(double d) const { return *this * (1/d); }] *)
Definition op_div (this : cref D) (d : D) : M D (Vec3d D) :=
  r <- fdiv d1 d ;;
  op_mul this r.

(** [friend Vec3d operator*(double d, const Vec3d &v) { return v * d; }] *)
Definition op_mul_left (d : D) (v : cref D) : M D (Vec3d D) :=
  op_mul v d.

(** [Vec3d operator*(const Vec3d &v) const] *)
Definition op_mul_vec (this v : cref D) : M D (Vec3d D) :=
  x <- rd this i0 ;; a <- rd v i0 ;;
  y <- rd this i1 ;; b <- rd v i1 ;;
  z <- rd this i2 ;; c <- rd v i2 ;;
  ret (Vec3d_xyz (x * a) (y * b) (z * c)).

(** [Vec3d operator/(const Vec3d &v) const] *)
Definition op_div_vec (this v : cref D) : M D (Vec3d D) :=
  x <- rd this i0 ;; a <- rd v i0 ;; p <- fdiv x a ;;
  y <- rd this i1 ;; b <- rd v i1 ;; q <- fdiv y b ;;
  z <- rd this i2 ;; c <- rd v i2 ;; r <- fdiv z c ;;
  ret (Vec3d_xyz p q r).

(** [Vec3d operator+(const Vec3d &v) const] *)
Definition op_add (this v : cref D) : M D (Vec3d D) :=
  x <- rd this i0 ;; a <- rd v i0 ;;
  y <- rd this i1 ;; b <- rd v i1 ;;
  z <- rd this i2 ;; c <- rd v i2 ;;
  ret (Vec3d_xyz (x + a) (y + b) (z + c)).

(** [Vec3d operator-(const Vec3d &v) const] *)
Definition op_sub (this v : cref D) : M D (Vec3d D) :=
  x <- rd this i0 ;; a <- rd v i0 ;;
  y <- rd this i1 ;; b <- rd v i1 ;;
  z <- rd this i2 ;; c <- rd v i2 ;;
  ret (Vec3d_xyz (x - a) (y - b) (z - c)).

(** [double dot(const Vec3d &v) const] *)
Definition dot (this v : cref D) : M D D :=
  x <- rd this i0 ;; a <- rd v i0 ;;
  y <- rd this i1 ;; b <- rd v i1 ;;
  z <- rd this i2 ;; c <- rd v i2 ;;
  ret (x * a + y * b + z * c).

(** [Vec3d cross(const Vec3d &v) const] *)
Definition cross (this v : cref D) : M D (Vec3d D) :=
  x <- rd this i0 ;; y <- rd this i1 ;; z <- rd this i2 ;;
  a <- rd v i0 ;; b <- rd v i1 ;; c <- rd v i2 ;;
  ret (Vec3d_xyz (y * c - z * b) (z * a - x * c) (x * b - y * a)).

(** [void negate()]; the literal [-1] is the [double] [-1.0]. *)
Definition negate (this : loc) : M D unit :=
  x <- rd (Obj this) i0 ;; wr this i0 (x * - d1) ;;
  y <- rd (Obj this) i1 ;; wr this i1 (y * - d1) ;;
  z <- rd (Obj this) i2 ;; wr this i2 (z * - d1).

(** [double length() const] *)
Definition length (this : cref D) : M D D :=
  x <- rd this i0 ;; y <- rd this i1 ;; z <- rd this i2 ;;
  ret (dsqrt (x * x + y * y + z * z)).

(** [Vec3d normalized() const]; [return 0.0] converts through
    [Vec3d(double)]. *)
Definition normalized (this : cref D) : M D (Vec3d D) :=
  len <- length this ;;
  if truthy len then op_div this len
  else ret (Vec3d_scalar d0).

(** [void normalize()] *)
Definition normalize (this : loc) : M D unit :=
  len <- length (Obj this) ;;
  if truthy len then op_div_assign this len ;; ret tt
  else ret tt.

(** [Vec3d orthogonal() const] *)
Definition orthogonal (this : cref D) : M D (Vec3d D) :=
  x <- rd this i0 ;; y <- rd this i1 ;; z <- rd this i2 ;;
  ret (Vec3d_xyz (y + z) (z - x) (- x - y)).

(** [double angle(const Vec3d &v) const]; [acos] is the function of
    <math.h>, taken as a parameter. *)
Definition angle (acos : D -> D) (this v : cref D) : M D D :=
  l1 <- length this ;; l2 <- length v ;;
  let len := l1 * l2 in
  if len == d0 then ret d0
  else
    p <- dot this v ;;
    q <- fdiv p len ;;
    ret (acos q).

(** *** The remaining members: rotation, accessors, arrays, output *)

(** [Vec3d rotateBy(const Vec3d &axis, double angle) const]; [cos] and [sin]
    are the functions of <math.h>, taken as parameters.  Each product of a
    [double] and a vector is the friend [operator*]. *)
Definition rotateBy (cos sin : D -> D) (this axis : cref D) (angle : D) : M D (Vec3d D) :=
  let c := cos angle in
  let s := sin angle in
  cv <- op_mul_left c this ;;
  d <- dot this axis ;;
  da <- op_mul_left ((d1 - c) * d) axis ;;
  sum <- op_add (Tmp cv) (Tmp da) ;;
  x <- cross this axis ;;
  sx <- op_mul_left s (Tmp x) ;;
  op_sub (Tmp sum) (Tmp sx).

(** [void getValue(double &x, double &y, double &z) const]: the three
    values handed to the caller's variables. *)
Definition getValue (this : cref D) : M D (D * D * D) :=
  x <- rd this i0 ;; y <- rd this i1 ;; z <- rd this i2 ;;
  ret (x, y, z).

(** [v[i]] on a caller's array, which lies outside the store of objects;
    [None] stands for a read past its end, which the source does not
    check. *)
Definition elem {E : Type} (v : list E) (i : nat) : option E := nth_error v i.

(** [void setValue(const double* v)], statement by statement; the result is
    [None] when a read went past the end of the array. *)
Definition setValue_array (this : loc) (v : list D) : M D (option unit) :=
  match elem v 0 with
  | None => ret None
  | Some x =>
      wr this i0 x ;;
      match elem v 1 with
      | None => ret None
      | Some y =>
          wr this i1 y ;;
          match elem v 2 with
          | None => ret None
          | Some z => wr this i2 z ;; ret (Some tt)
          end
      end
  end.

(** [Vec3d(const double* v)] and [Vec3d(const float* v)], both
    [{ setValue(v[0], v[1], v[2]); }]: the three elements are read, converted
    to [double] by [conv] (the identity for [double]), and stored. *)
Definition ctor_array {E : Type} (conv : E -> D) (v : list E) (this : loc)
  : M D (option unit) :=
  match elem v 0, elem v 1, elem v 2 with
  | Some x, Some y, Some z => setValue this (conv x) (conv y) (conv z) ;; ret (Some tt)
  | _, _, _ => ret None
  end.

(** The subscripts of [_vec[i]] that lie inside the array. *)
Definition subscript (i : Z) : option idx :=
  match i with
  | 0%Z => Some i0
  | 1%Z => Some i1
  | 2%Z => Some i2
  | _ => None
  end.

(** [double operator[](int i) const]; [None] stands for an access outside
    [_vec], which the source does not check. *)
Definition op_index (this : cref D) (i : Z) : M D (option D) :=
  match subscript i with
  | Some k => x <- rd this k ;; ret (Some x)
  | None => ret None
  end.

(** [double &operator[](int i)]: the component referred to. *)
Definition op_index_ref (this : loc) (i : Z) : option (loc * idx) :=
  match subscript i with
  | Some k => Some (this, k)
  | None => None
  end.

(** An assignment [r = x] through a [double &]. *)
Definition assign_ref (r : loc * idx) (x : D) : M D unit :=
  wr (fst r) (snd r) x.

(** [friend std::ostream & operator<<(std::ostream &os, const Vec3d &v)].
    The stream is an object of the caller, with whatever state it has
    (width, precision, failure); [put_text] and [put_double] are its own
    [operator<<] for a string literal and for a [double].  The function
    returns the stream after the seven insertions. *)
Definition op_out {S : Type} (put_text : S -> string -> S) (put_double : S -> D -> S)
  (os : S) (v : cref D) : M D S :=
  x <- rd v i0 ;; y <- rd v i1 ;; z <- rd v i2 ;;
  ret (put_text
         (put_double
            (put_text
               (put_double
                  (put_text (put_double (put_text os "("%string) x) ","%string)
                  y)
               ","%string)
            z)
         ")"%string).

End Members.
End Vec3d.

(** ** The pattern-matcher driver (src/tests/patterns.cpp) *)

(** What a call of a [void] function does to the caller: come back, or end
    the process through [exit(status)]. *)
Inductive control : Type :=
| Returns
| Exits (status : Z).

(** [void quit(const std::string & str)] *)
Definition quit (str : string) : control :=
  if (String.eqb str "quit" || String.eqb str "q")%bool then Exits 0 else Returns.

(** One turn of the [while(true)] loop of [main], from what [getline] read
    and what [std::cin.eof()] then says: at end of input the line is replaced
    by ["q"]; [quit(str)] runs; when it comes back the line goes to
    [expr.setExpr(str)]. *)
Inductive turn : Type :=
| Exit (status : Z)
| Submit (str : string).

Definition main_turn (line : string) (eof : bool) : turn :=
  let str := if eof then "q"%string else line in
  match quit str with
  | Exits status => Exit status
  | Returns => Submit str
  end.

(** The loop of [main] over the successive results of [getline]; past the end
    of [cin] every read is empty with [eof] set.  Returns the expression texts
    submitted and the exit status; [None] when [fuel] turns were not enough. *)
Fixpoint main_loop (fuel : nat) (cin : list (string * bool)) : option (list string * Z) :=
  match fuel with
  | O => None
  | S fuel' =>
      let '(line, eof, rest) :=
        match cin with
        | [] => (EmptyString, true, [])
        | (line, eof) :: rest => (line, eof, rest)
        end in
      match main_turn line eof with
      | Exit status => Some ([], status)
      | Submit str =>
          match main_loop fuel' rest with
          | Some (submitted, status) => Some (str :: submitted, status)
          | None => None
          end
      end
  end.

Module PatternExpr.

(** [struct DummyFuncX : SeExprFuncX]; its only state is the flag its
    constructor passes to the base class, [SeExprFuncX(false)]. *)
Record DummyFuncX : Type := mkDummyFuncX {
  threadSafe : bool
}.

(** [SeExprFunc], as [dummyFunc(dummyFuncX, 0, 16)] builds it: the function
    object and the bounds on the number of arguments. *)
Record SeExprFunc : Type := mkSeExprFunc {
  funcx   : DummyFuncX;
  minargs : Z;
  maxargs : Z
}.

(** The members of [class PatternExpr] that resolution reads. *)
Record PatternExpr : Type := mkPatternExpr {
  dummyFuncX : DummyFuncX;
  dummyFunc  : SeExprFunc
}.

(** Both constructors: [dummyFuncX()] and [dummyFunc(dummyFuncX, 0, 16)]. *)
Definition ctor : PatternExpr :=
  let fx := mkDummyFuncX false in
  mkPatternExpr fx (mkSeExprFunc fx 0 16).

(** [virtual bool isScalar() const { return true; }] *)
Definition isScalar (this : DummyFuncX) : bool := true.

Section Host.

(** Types and member functions of the expression library that the driver
    uses and whose headers are not among the embedded files; they are
    parameters. *)
Variable SeExprVarRef : Type.
Variable SeExprType : Type.
Variable SeExprVarEnv : Type.
Variable SeExprFuncNode : Type.
(** [SeExprType::isValid()] *)
Variable isValid : SeExprType -> bool.
(** [node->numChildren()] and [node->isStrArg(i)] *)
Variable numChildren : SeExprFuncNode -> nat.
Variable isStrArg : SeExprFuncNode -> nat -> bool.
(** [node->child(i)->prep(wantScalar, env)]; [env] is passed by reference, so
    the call hands back the environment it leaves. *)
Variable child_prep :
  SeExprFuncNode -> nat -> bool -> SeExprVarEnv -> SeExprType * SeExprVarEnv.

(** A pointer [T*]: [None] is the null pointer [0]. *)
Definition ptr (T : Type) : Type := option T.

(** [SeExprVarRef* resolveVar(const std::string& name) const { return 0; }] *)
Definition resolveVar (this : PatternExpr) (name : string) : ptr SeExprVarRef :=
  None.

(** [SeExprFunc* resolveFunc(const std::string& name) const
    { return &dummyFunc; }] *)
Definition resolveFunc (this : PatternExpr) (name : string) : ptr SeExprFunc :=
  Some (dummyFunc this).

(** One turn of the [for] loop of [DummyFuncX::prep], for the child [i]:
    from the local [valid] and [env] before it to those after it.  [&=]
    evaluates its right-hand side whatever [valid] is. *)
Definition prep_turn (node : SeExprFuncNode) (acc : bool * SeExprVarEnv) (i : nat)
  : bool * SeExprVarEnv :=
  let (valid, env) := acc in
  if negb (isStrArg node i) then
    let (t, env') := child_prep node i false env in
    (andb valid (isValid t), env')
  else (valid, env).

(** The loop, for [i] from 0 below [node->numChildren()], started with
    [valid = true]. *)
Definition prep_loop (node : SeExprFuncNode) (env : SeExprVarEnv) : bool * SeExprVarEnv :=
  fold_left (prep_turn node) (seq 0 (numChildren node)) (true, env).

(** [SeExprType prep(SeExprFuncNode* node, SeExprType wanted,
    SeExprVarEnv & env)]: the loop runs, then [return wanted]. *)
Definition prep (this : DummyFuncX) (node : SeExprFuncNode) (wanted : SeExprType)
  (env : SeExprVarEnv) : SeExprType * SeExprVarEnv :=
  let (valid, env') := prep_loop node env in
  (wanted, env').

(** [void eval(const SeExprFuncNode* node, SeVec3d& result) const
    { result = SeVec3d(); }] *)
Definition eval {D} `{Double D} (this : DummyFuncX) (node : SeExprFuncNode)
  (result : loc) : M D unit :=
  v <- Vec3d.temporary Vec3d.ctor_default ;;
  Vec3d.op_assign result (Tmp v) ;;
  ret tt.

End Host.
End PatternExpr.

(** ** Definitions used in the statements *)

(** The object a reference denotes in a state. *)
Definition deref {D} `{Double D} (r : cref D) (s : state D) : Vec3d D :=
  result (load r) s.

(** Dividing each component of [v] by [d], as the specification words scalar
    division (not taken from the source, which multiplies by [1/d]). *)
Definition div_each (v : Vec3d R) (d : R) : Vec3d R :=
  mkVec3d (_vec0 v / d)%R (_vec1 v / d)%R (_vec2 v / d)%R.

(** A binary64 store whose every object, allocated or not, holds (1, 2, 3). *)
Definition junk : state float :=
  mkState (fun _ => mkVec3d 1%float 2%float 3%float) 0 [].

(** The binary64 vector (2^-600, 0, 0) at every address: its square
    underflows to zero. *)
Definition tiny : state float :=
  mkState (fun _ => mkVec3d 0x1p-600%float 0%float 0%float) 1 [].

(** A binary64 store whose every object is the zero vector. *)
Definition zeros : state float :=
  mkState (fun _ => mkVec3d 0%float 0%float 0%float) 1 [].

(** Two binary64 vectors with finite components whose products overflow:
    (2^600, 2^600, 0) at address 0 and (2^601, 2^600, 0) elsewhere. *)
Definition huge : state float :=
  mkState (fun l => if Nat.eqb l 0
                    then mkVec3d 0x1p600%float 0x1p600%float 0%float
                    else mkVec3d 0x1p601%float 0x1p600%float 0%float) 2 [].

(** The binary64 vectors (1, 2, 3) at address 0 and (4, 5, 6) elsewhere. *)
Definition two_vectors : state float :=
  mkState (fun l => if Nat.eqb l 0
                    then mkVec3d 1%float 2%float 3%float
                    else mkVec3d 4%float 5%float 6%float) 2 [].

(** The binary64 vector (1, 1, 1) at every address. *)
Definition ones : state float :=
  mkState (fun _ => mkVec3d 1%float 1%float 1%float) 1 [].

(** What the C standard fixes of [acos] outside its domain (C11 7.12.4.1 and
    F.10.1.1): for an argument that is not in [-1, 1], a NaN among them, the
    result is a NaN. *)
Definition acos_outside_domain (acos : float -> float) : Prop :=
  forall x : float, (abs x <=? 1)%float = false -> acos x = nan.

(** A binary64 store whose every object is a zero vector with signs:
    (-0, 0, -0). *)
Definition signed_zeros : state float :=
  mkState (fun _ => mkVec3d (-0)%float 0%float (-0)%float) 1 [].

(** A stream with no state but the text written so far, which formats a
    [double] by [show]: no field width, no failure. *)
Definition plain_text (os t : string) : string := (os ++ t)%string.
Definition plain_double {D : Type} (show : D -> string) (os : string) (d : D) : string :=
  (os ++ show d)%string.

(** An exact store holding (3, 0, 4) at address 0 and (0, 0, 0) elsewhere. *)
Definition exact345 : state R :=
  mkState (fun l => if Nat.eqb l 0 then mkVec3d 3%R 0%R 4%R else mkVec3d 0%R 0%R 0%R) 1 [].

(** Unfolds the member functions down to reads and writes of the store. *)
Ltac run :=
  unfold deref, result, after;
  cbv [PatternExpr.eval
       Vec3d.setValue Vec3d.ctor_default Vec3d.ctor_scalar Vec3d.ctor_xyz Vec3d.temporary
       Vec3d.op_assign Vec3d.op_mul_assign Vec3d.op_div_assign Vec3d.op_add_assign
       Vec3d.op_sub_assign Vec3d.op_neg Vec3d.op_eq Vec3d.op_ne Vec3d.op_mul Vec3d.op_div
       Vec3d.op_mul_left Vec3d.op_mul_vec Vec3d.op_div_vec Vec3d.op_add Vec3d.op_sub
       Vec3d.dot Vec3d.cross Vec3d.negate Vec3d.length Vec3d.normalized Vec3d.normalize
       Vec3d.orthogonal Vec3d.angle Vec3d.Vec3d_xyz Vec3d.Vec3d_scalar
       bind ret rd wr fdiv alloca load].

(** Splits on what a [const Vec3d &] is bound to and, for an object, on
    whether it is the receiver [this]. *)
Ltac alias v this :=
  let l := fresh "l" in
  let E := fresh "E" in
  destruct v as [l | ?];
  [ destruct (Nat.eqb l this) eqn:E;
    [ apply Nat.eqb_eq in E; subst l | ] | ].

(** Resolves the reads of an updated store, from the address comparisons
    in the context. *)
Ltac store :=
  cbv [upd];
  repeat (progress
    (rewrite ?Nat.eqb_refl;
     repeat match goal with
            | E : Nat.eqb ?a ?b = false |- context [Nat.eqb ?a ?b] => rewrite E
            end;
     cbn)).

(** The binary64 vector (3, 0, 4) at address 0 and (0, 0, 1) elsewhere. *)
Definition b345 : state float :=
  mkState (fun l => if Nat.eqb l 0
                    then mkVec3d 3%float 0%float 4%float
                    else mkVec3d 0%float 0%float 1%float) 2 [].

(** An exact store holding (3, 0, 4) at address 0 and the unit vector
    (0, 0, 1) elsewhere. *)
Definition exact_axis : state R :=
  mkState (fun l => if Nat.eqb l 0 then mkVec3d 3%R 0%R 4%R else mkVec3d 0%R 0%R 1%R) 2 [].

(** The lines [main] hands to [setExpr]: those read before the first read
    that has [eof] set or is ["quit"] or ["q"]. *)
Fixpoint submitted_lines (cin : list (string * bool)) : list string :=
  match cin with
  | [] => []
  | (line, eof) :: rest =>
      if (eof || String.eqb line "quit" || String.eqb line "q")%bool then []
      else line :: submitted_lines rest
  end.

(** A text without the character [","]. *)
Fixpoint no_comma (t : string) : Prop :=
  match t with
  | EmptyString => True
  | String c t' => c <> ","%char /\ no_comma t'
  end.

(** The children of a call that are not tag arguments, in order. *)
Definition expr_children {N : Type} (numChildren : N -> nat) (isStrArg : N -> nat -> bool)
  (node : N) : list nat :=
  filter (fun i => negb (isStrArg node i)) (seq 0 (numChildren node)).

(** [run], with the remaining members unfolded first. *)
Ltac run_more :=
  unfold Vec3d.rotateBy, Vec3d.getValue, Vec3d.setValue_array, Vec3d.ctor_array,
    Vec3d.op_index, Vec3d.op_index_ref, Vec3d.assign_ref, Vec3d.op_out, Vec3d.elem;
  run.

(** Closes [lhs = rhs] between polynomials that differ by a multiple [q1] of
    [K - 1] and a multiple [q2] of [sin^2 + cos^2 - 1], from [HK : K = 1] and
    [Hcs : sin^2 + cos^2 = 1]. *)
Ltac unit_axis lhs rhs HK Hcs K q1 q2 :=
  match type of Hcs with
  | (?sc = _)%R =>
      replace lhs with (rhs + (K - 1) * q1 + (sc - 1) * q2)%R by ring;
      rewrite HK, Hcs; ring
  end.

(** ** Facts about the store *)

Lemma upd_same {D} (m : loc -> Vec3d D) l v : upd m l v l = v.
Proof. unfold upd. now rewrite Nat.eqb_refl. Qed.

Lemma upd_other {D} (m : loc -> Vec3d D) l l' v : l' <> l -> upd m l v l' = m l'.
Proof. unfold upd. intros E. apply Nat.eqb_neq in E. now rewrite E. Qed.

Lemma Vec3d_eta {D} (v : Vec3d D) : mkVec3d (_vec0 v) (_vec1 v) (_vec2 v) = v.
Proof. now destruct v. Qed.

Lemma Reqb_true (x y : R) : Reqb x y = true <-> x = y.
Proof. unfold Reqb. destruct (Req_dec_T x y); split; congruence. Qed.

Lemma Reqb_false (x y : R) : Reqb x y = false <-> x <> y.
Proof. unfold Reqb. destruct (Req_dec_T x y); split; congruence. Qed.

(** ** Construction *)

Section Construction.
Context {D : Type} `{Double D}.

(** [Vec3d(x, y, z)] on any storage leaves the components (x, y, z). *)
Lemma temporary_xyz (x y z : D) (s : state D) :
  result (Vec3d.temporary (Vec3d.ctor_xyz x y z)) s = Vec3d.Vec3d_xyz x y z.
Proof. run. cbn. rewrite !upd_same. reflexivity. Qed.

(** [Vec3d(v)] on any storage leaves the components (v, v, v). *)
Lemma temporary_scalar (v : D) (s : state D) :
  result (Vec3d.temporary (Vec3d.ctor_scalar v)) s = Vec3d.Vec3d_scalar v.
Proof. apply temporary_xyz. Qed.

(** C1, as the code has it: the default constructor writes nothing, so a
    default-constructed [Vec3d] has the components its storage already held;
    [DummyFuncX::eval] copies such a temporary into [result], which then holds
    what the temporary's storage held.  The zero vector is what the scalar
    constructor [Vec3d(0.0)] builds. *)
Theorem default_ctor_keeps_storage
  (SeExprFuncNode : Type) (fx : PatternExpr.DummyFuncX) (node : SeExprFuncNode)
  (this res : loc) (s : state D) :
  after (Vec3d.ctor_default this) s = s
  /\ result (Vec3d.temporary Vec3d.ctor_default) s = mem s (sp s)
  /\ mem (after (PatternExpr.eval fx node res) s) res = mem s (sp s)
  /\ result (Vec3d.temporary (Vec3d.ctor_scalar d0)) s = mkVec3d d0 d0 d0.
Proof.
  repeat split.
  - run. cbn. apply Vec3d_eta.
  - run. cbn. rewrite !upd_same. cbn. apply Vec3d_eta.
  - apply temporary_scalar.
Qed.

End Construction.

(** C1 fails as stated: on storage that holds (1, 2, 3), the
    default-constructed temporary does not compare equal to [Vec3d(0.0)], and
    neither does the result object after [DummyFuncX::eval]. *)
Lemma default_ctor_not_zero :
  result (Vec3d.op_eq (Tmp (result (Vec3d.temporary Vec3d.ctor_default) junk))
                      (Tmp (Vec3d.Vec3d_scalar d0))) junk = false
  /\ result (Vec3d.op_eq (Obj 7) (Tmp (Vec3d.Vec3d_scalar d0)))
       (after (PatternExpr.eval (PatternExpr.mkDummyFuncX false) tt 7) junk) = false.
Proof. split; vm_compute; reflexivity. Qed.

(** ** Compound assignment and the binary forms *)

Section Forms.
Context {D : Type} `{Double D}.

(** The [const] forms leave the whole state as it was; [operator/] only
    records its divisor. *)
Lemma const_forms_pure (a b : cref D) (d : D) (s : state D) :
  after (Vec3d.op_add a b) s = s
  /\ after (Vec3d.op_sub a b) s = s
  /\ after (Vec3d.op_mul a d) s = s
  /\ after (Vec3d.op_neg a) s = s
  /\ after (Vec3d.op_div a d) s = mkState (mem s) (sp s) (d :: divs s).
Proof. run. destruct a, b; cbn; repeat split. Qed.

(** What the [const] forms return, component by component. *)
Lemma const_forms_value (a b : cref D) (d : D) (s : state D) :
  let u := deref a s in
  let v := deref b s in
  result (Vec3d.op_add a b) s
    = mkVec3d (_vec0 u + _vec0 v)%dbl (_vec1 u + _vec1 v)%dbl (_vec2 u + _vec2 v)%dbl
  /\ result (Vec3d.op_sub a b) s
    = mkVec3d (_vec0 u - _vec0 v)%dbl (_vec1 u - _vec1 v)%dbl (_vec2 u - _vec2 v)%dbl
  /\ result (Vec3d.op_mul a d) s
    = mkVec3d (_vec0 u * d)%dbl (_vec1 u * d)%dbl (_vec2 u * d)%dbl
  /\ result (Vec3d.op_neg a) s
    = mkVec3d (- _vec0 u)%dbl (- _vec1 u)%dbl (- _vec2 u)%dbl
  /\ result (Vec3d.op_div a d) s
    = mkVec3d (_vec0 u * (d1 / d))%dbl (_vec1 u * (d1 / d))%dbl (_vec2 u * (d1 / d))%dbl.
Proof. run. destruct a, b; cbn; repeat split. Qed.

(** [v / d] is [v * (1/d)], and [v /= d] leaves the store [v *= (1/d)]
    leaves, on every carrier. *)
Lemma division_is_reciprocal_multiplication (v : cref D) (this : loc) (d : D) (s : state D) :
  result (Vec3d.op_div v d) s = result (Vec3d.op_mul v (d1 / d)%dbl) s
  /\ mem (after (Vec3d.op_div_assign this d) s)
     = mem (after (Vec3d.op_mul_assign this (d1 / d)%dbl) s)
  /\ divs (after (Vec3d.op_div_assign this d) s) = d :: divs s.
Proof. run. destruct v; cbn; repeat split. Qed.

(** C7: [+=], [-=], [*=] and [/=] return the receiver they were called on,
    leave in it what the matching binary form computes, and touch no other
    object; the binary forms [+], [-], [*], [/] and unary [-] return a value
    and leave every object of the store, their operands among them, as it
    was. *)
Theorem compound_forms_return_receiver (this : loc) (v a b : cref D) (d : D) (s : state D) :
  (result (Vec3d.op_add_assign this v) s = this
   /\ mem (after (Vec3d.op_add_assign this v) s) this = result (Vec3d.op_add (Obj this) v) s
   /\ forall l, l <> this -> mem (after (Vec3d.op_add_assign this v) s) l = mem s l)
  /\ (result (Vec3d.op_sub_assign this v) s = this
   /\ mem (after (Vec3d.op_sub_assign this v) s) this = result (Vec3d.op_sub (Obj this) v) s
   /\ forall l, l <> this -> mem (after (Vec3d.op_sub_assign this v) s) l = mem s l)
  /\ (result (Vec3d.op_mul_assign this d) s = this
   /\ mem (after (Vec3d.op_mul_assign this d) s) this = result (Vec3d.op_mul (Obj this) d) s
   /\ forall l, l <> this -> mem (after (Vec3d.op_mul_assign this d) s) l = mem s l)
  /\ (result (Vec3d.op_div_assign this d) s = this
   /\ mem (after (Vec3d.op_div_assign this d) s) this = result (Vec3d.op_div (Obj this) d) s
   /\ forall l, l <> this -> mem (after (Vec3d.op_div_assign this d) s) l = mem s l)
  /\ (mem (after (Vec3d.op_add a b) s) = mem s
   /\ mem (after (Vec3d.op_sub a b) s) = mem s
   /\ mem (after (Vec3d.op_mul a d) s) = mem s
   /\ mem (after (Vec3d.op_div a d) s) = mem s
   /\ mem (after (Vec3d.op_neg a) s) = mem s).
Proof.
  repeat apply conj.
  1-6: alias v this; run; cbn; store; try reflexivity;
       intros l' Hl'; apply Nat.eqb_neq in Hl'; store; reflexivity.
  1-6: run; cbn; store; try reflexivity;
       intros l' Hl'; apply Nat.eqb_neq in Hl'; store; reflexivity.
  all: run; destruct a, b; reflexivity.
Qed.

End Forms.

(** ** Scalar division *)

(** C10: on every carrier [v / d] returns what [v * (1/d)] returns and
    [v /= d] leaves the store that [v *= (1/d)] leaves; in exact arithmetic,
    for [d] other than zero, that is each component of [v] divided by [d]. *)
Theorem scalar_division_by_reciprocal :
  (forall (D : Type) (HD : Double D) (v : cref D) (this : loc) (d : D) (s : state D),
      result (Vec3d.op_div v d) s = result (Vec3d.op_mul v (d1 / d)%dbl) s
      /\ mem (after (Vec3d.op_div_assign this d) s)
         = mem (after (Vec3d.op_mul_assign this (d1 / d)%dbl) s))
  /\ (forall (v : cref R) (this : loc) (d : R) (s : state R),
      d <> 0%R ->
      result (Vec3d.op_div v d) s = div_each (deref v s) d
      /\ mem (after (Vec3d.op_div_assign this d) s) this = div_each (mem s this) d).
Proof.
  split.
  - intros D HD v this d s.
    destruct (division_is_reciprocal_multiplication v this d s) as (Hv & Hm & _).
    split; assumption.
  - intros v this d s Hd. unfold div_each. split.
    + run. destruct v; cbn; f_equal; field; exact Hd.
    + run. cbn. store. f_equal; field; exact Hd.
Qed.

(** At (3, 0, 4) and [d = 2]: the quotient is (3/2, 0/2, 4/2). *)
Lemma scalar_division_by_reciprocal_witness :
  (2 <> 0)%R
  /\ result (Vec3d.op_div (Obj 0) 2%R) exact345
     = div_each (mkVec3d 3%R 0%R 4%R) 2%R.
Proof.
  split; [lra | ].
  exact (proj1 (proj2 scalar_division_by_reciprocal (Obj 0) 0 2%R exact345 ltac:(lra))).
Defined.

(** ** [length], [normalized] and [normalize] *)

Section Normalize.
Context {D : Type} `{Double D}.

(** [length()] is the square root of the sum of the squares, and reads only. *)
Lemma length_value (r : cref D) (s : state D) :
  result (Vec3d.length r) s
  = dsqrt (_vec0 (deref r s) * _vec0 (deref r s)
           + _vec1 (deref r s) * _vec1 (deref r s)
           + _vec2 (deref r s) * _vec2 (deref r s))%dbl
  /\ after (Vec3d.length r) s = s.
Proof. run. destruct r; cbn; split; reflexivity. Qed.

(** On every carrier, when [length()] compares equal to zero,
    [normalized()] returns (0, 0, 0), and both [normalized()] and
    [normalize()] leave the whole state as it was: the receiver is not
    written and no division is executed. *)
Theorem zero_length_normalize (this : loc) (s : state D) :
  (result (Vec3d.length (Obj this)) s == d0)%dbl = true ->
  result (Vec3d.normalized (Obj this)) s = mkVec3d d0 d0 d0
  /\ after (Vec3d.normalized (Obj this)) s = s
  /\ after (Vec3d.normalize this) s = s.
Proof.
  intros Hlen. revert Hlen. run. cbn. unfold truthy.
  intros ->. cbn. repeat split.
Qed.

(** Whatever the length, a divisor that [normalized()] or [normalize()]
    records is the length itself and differs from zero. *)
Lemma normalize_divisor_nonzero (this : loc) (s : state D) :
  let len := result (Vec3d.length (Obj this)) s in
  (divs (after (Vec3d.normalized (Obj this)) s) = divs s
   \/ truthy len = true /\ divs (after (Vec3d.normalized (Obj this)) s) = len :: divs s)
  /\ (divs (after (Vec3d.normalize this) s) = divs s
   \/ truthy len = true /\ divs (after (Vec3d.normalize this) s) = len :: divs s).
Proof.
  run. cbn.
  destruct (truthy _) eqn:E; cbn; split; auto.
Qed.

End Normalize.

(** The zero vector in binary64: its length is zero, [normalized()] returns
    (0, 0, 0) and nothing changes. *)
Lemma zero_length_normalize_witness :
  (result (Vec3d.length (Obj 0)) zeros == d0)%dbl = true
  /\ result (Vec3d.normalized (Obj 0)) zeros = mkVec3d d0 d0 d0
  /\ after (Vec3d.normalized (Obj 0)) zeros = zeros
  /\ after (Vec3d.normalize 0) zeros = zeros.
Proof.
  split; [reflexivity | ].
  apply (zero_length_normalize 0 zeros). reflexivity.
Defined.

(** A binary64 vector that is not the zero vector can have a computed
    [length()] of zero: the square of 2^-600 underflows.  On (2^-600, 0, 0)
    [normalize()] leaves the vector as it is, while [normalized()] returns
    (0, 0, 0). *)
Lemma normalize_keeps_underflowing_vector :
  (result (Vec3d.length (Obj 0)) tiny == d0)%dbl = true
  /\ result (Vec3d.op_eq (Obj 0) (Tmp (Vec3d.Vec3d_scalar d0)))
       (after (Vec3d.normalize 0) tiny) = false.
Proof. split; vm_compute; reflexivity. Qed.

(** In exact arithmetic a vector of length zero is the zero vector, so there
    [normalize()] does leave (0, 0, 0). *)
Lemma exact_zero_length (r : cref R) (s : state R) :
  result (Vec3d.length r) s = 0%R -> deref r s = mkVec3d 0%R 0%R 0%R.
Proof.
  destruct (length_value r s) as [-> _]. cbn.
  destruct (deref r s) as [x y z]. cbn. intros Hs.
  apply sqrt_eq_0 in Hs; [ | nra ].
  f_equal; nra.
Qed.

(** ** [dot], [cross], [orthogonal] and [angle] *)

Section Products.
Context {D : Type} `{Double D}.

(** [dot] and [cross] component by component; both only read. *)
Lemma dot_value (a b : cref D) (s : state D) :
  result (Vec3d.dot a b) s
  = (_vec0 (deref a s) * _vec0 (deref b s)
     + _vec1 (deref a s) * _vec1 (deref b s)
     + _vec2 (deref a s) * _vec2 (deref b s))%dbl
  /\ after (Vec3d.dot a b) s = s.
Proof. run. destruct a, b; cbn; split; reflexivity. Qed.

Lemma cross_value (a b : cref D) (s : state D) :
  result (Vec3d.cross a b) s
  = mkVec3d
      (_vec1 (deref a s) * _vec2 (deref b s) - _vec2 (deref a s) * _vec1 (deref b s))%dbl
      (_vec2 (deref a s) * _vec0 (deref b s) - _vec0 (deref a s) * _vec2 (deref b s))%dbl
      (_vec0 (deref a s) * _vec1 (deref b s) - _vec1 (deref a s) * _vec0 (deref b s))%dbl
  /\ after (Vec3d.cross a b) s = s.
Proof. run. destruct a, b; cbn; split; reflexivity. Qed.

Lemma orthogonal_value (v : cref D) (s : state D) :
  result (Vec3d.orthogonal v) s
  = mkVec3d (_vec1 (deref v s) + _vec2 (deref v s))%dbl
            (_vec2 (deref v s) - _vec0 (deref v s))%dbl
            (- _vec0 (deref v s) - _vec1 (deref v s))%dbl
  /\ after (Vec3d.orthogonal v) s = s.
Proof. run. destruct v; cbn; split; reflexivity. Qed.

(** [angle] tests the product of the two lengths, on every carrier; the
    division it executes has that product as divisor. *)
Lemma angle_value (acos : D -> D) (a b : cref D) (s : state D) :
  let len := (result (Vec3d.length a) s * result (Vec3d.length b) s)%dbl in
  result (Vec3d.angle acos a b) s
  = (if (len == d0)%dbl then d0 else acos (result (Vec3d.dot a b) s / len)%dbl)
  /\ divs (after (Vec3d.angle acos a b) s)
  = (if (len == d0)%dbl then divs s else len :: divs s).
Proof.
  run. destruct a, b; cbn;
    match goal with |- context [if ?c then _ else _] => destruct c end;
    split; reflexivity.
Qed.

End Products.

Section Exact.
Local Open Scope R_scope.

(** In exact arithmetic [a.cross(b) == -(b.cross(a))] is true for every
    pair. *)
Lemma cross_anticommutative_exact (a b : cref R) (s : state R) :
  result (ab <- Vec3d.cross a b ;;
          ba <- Vec3d.cross b a ;;
          n <- Vec3d.op_neg (Tmp ba) ;;
          Vec3d.op_eq (Tmp ab) (Tmp n)) s = true.
Proof.
  run. destruct a, b; cbn;
    repeat match goal with
           | |- context [Reqb ?x ?y] =>
               replace (Reqb x y) with true by (symmetry; apply Reqb_true; ring)
           end;
    reflexivity.
Qed.

(** In exact arithmetic the inner product of [v] and [v.orthogonal()] is
    zero, for every [v]. *)
Lemma orthogonal_dot_exact (v : cref R) (s : state R) :
  result (o <- Vec3d.orthogonal v ;; Vec3d.dot v (Tmp o)) s = 0.
Proof. run. destruct v; cbn; ring. Qed.

(** The exact length, squared, is the sum of the squares. *)
Lemma length_sqr (r : cref R) (s : state R) :
  result (Vec3d.length r) s * result (Vec3d.length r) s = result (Vec3d.dot r r) s.
Proof.
  destruct (length_value r s) as [-> _]. destruct (dot_value r r s) as [-> _].
  cbn. apply sqrt_sqrt. nra.
Qed.

(** In exact arithmetic the product of the lengths is zero exactly when one
    of them is; [angle] is then 0, so the zero vector is at angle 0 to every
    vector, and a vector of nonzero length is at angle 0 to itself. *)
Lemma angle_exact (a b : cref R) (s : state R) :
  (result (Vec3d.length a) s * result (Vec3d.length b) s <> 0 ->
   result (Vec3d.angle acos a b) s
   = acos (result (Vec3d.dot a b) s
           / (result (Vec3d.length a) s * result (Vec3d.length b) s)))
  /\ (result (Vec3d.length a) s = 0 \/ result (Vec3d.length b) s = 0 ->
      result (Vec3d.angle acos a b) s = 0)
  /\ result (Vec3d.angle acos (Tmp (Vec3d.Vec3d_xyz 0 0 0)) b) s = 0
  /\ (result (Vec3d.length a) s <> 0 -> result (Vec3d.angle acos a a) s = 0).
Proof.
  assert (Hzero : forall u v : cref R,
             result (Vec3d.length u) s = 0 \/ result (Vec3d.length v) s = 0 ->
             result (Vec3d.angle acos u v) s = 0).
  { intros u v Huv. destruct (angle_value acos u v s) as [-> _]. cbn.
    replace (Reqb _ 0) with true; [reflexivity | ].
    symmetry. apply Reqb_true. destruct Huv as [-> | ->]; ring. }
  repeat apply conj.
  - intros Hlen. destruct (angle_value acos a b s) as [-> _]. cbn.
    apply Reqb_false in Hlen. now rewrite Hlen.
  - apply Hzero.
  - apply Hzero. left.
    destruct (length_value (Tmp (Vec3d.Vec3d_xyz 0 0 0)) s) as [-> _]. cbn.
    replace (0 * 0 + 0 * 0 + 0 * 0) with 0 by ring. apply sqrt_0.
  - intros Hlen. destruct (angle_value acos a a s) as [-> _]. cbn.
    rewrite length_sqr.
    assert (Hdot : result (Vec3d.dot a a) s <> 0).
    { rewrite <- length_sqr. nra. }
    apply Reqb_false in Hdot as Hb. rewrite Hb.
    replace (result (Vec3d.dot a a) s / result (Vec3d.dot a a) s) with 1
      by (field; exact Hdot).
    apply acos_1.
Qed.

End Exact.

(** ** Binary64: what survives rounding *)

Section Binary64.
Local Open Scope float_scope.

(** [==] holds between a number and itself; only NaN is unequal to itself. *)
Lemma SFeqb_refl (x : spec_float) : x <> S754_nan -> SFeqb x x = true.
Proof.
  destruct x as [sg | sg | | sg m e]; intros Hx; try congruence;
    unfold SFeqb, SFcompare.
  - reflexivity.
  - now destruct sg.
  - destruct sg; rewrite Z.compare_refl, Pos.compare_cont_refl; reflexivity.
Qed.

(** Rounding to nearest does not look at the sign, in any format. *)
Lemma binary_round_aux_opp (p emx : Z) (sg : bool) (m e : Z) (l : location) :
  SFopp (binary_round_aux p emx sg m e l) = binary_round_aux p emx (negb sg) m e l.
Proof.
  unfold binary_round_aux.
  destruct (shr_fexp p emx m e l) as [mrs' e'].
  destruct (shr_fexp p emx _ e' loc_Exact) as [mrs'' e''].
  destruct (shr_m mrs''); try reflexivity.
  destruct (Z.leb e'' (Z.sub emx p)); reflexivity.
Qed.

Lemma binary_round_opp (p emx : Z) (sg : bool) (m : positive) (e : Z) :
  SFopp (binary_round p emx sg m e) = binary_round p emx (negb sg) m e.
Proof.
  unfold binary_round.
  destruct (shl_align _ _ _) as [mz ez]. apply binary_round_aux_opp.
Qed.

Lemma binary_normalize_opp (p emx : Z) (m e : Z) :
  SFeqb (binary_normalize p emx m e false) (binary_normalize p emx m e false) = true ->
  SFeqb (binary_normalize p emx m e false)
        (SFopp (binary_normalize p emx (Z.opp m) e false)) = true.
Proof.
  destruct m as [ | q | q]; cbn [binary_normalize Z.opp].
  - reflexivity.
  - now rewrite binary_round_opp.
  - now rewrite binary_round_opp.
Qed.

Lemma SFsub_antisym (p emx : Z) (x y : spec_float) :
  SFeqb (SFsub p emx x y) (SFsub p emx x y) = true ->
  SFeqb (SFsub p emx x y) (SFopp (SFsub p emx y x)) = true.
Proof.
  destruct x as [sx | sx | | sx mx ex], y as [sy | sy | | sy my ey];
    try solve [ repeat match goal with b : bool |- _ => destruct b end;
                cbn; intros Hr; first [exact Hr | reflexivity | discriminate Hr] ].
  cbn [SFsub]. intros Hr.
  rewrite (Z.min_comm ey ex).
  set (A := cond_Zopp sx _) in *. set (B := cond_Zopp sy _) in *.
  replace (Z.sub B A) with (Z.opp (Z.sub A B)) by ring.
  now apply binary_normalize_opp.
Qed.

Lemma SFmul_comm (p emx : Z) (x y : spec_float) : SFmul p emx x y = SFmul p emx y x.
Proof.
  destruct x as [sx | sx | | sx mx ex], y as [sy | sy | | sy my ey]; cbn;
    rewrite ?(xorb_comm sx sy); try reflexivity.
  now rewrite Pos.mul_comm, Z.add_comm.
Qed.

(** The product of two doubles does not depend on their order. *)
Lemma b64_mul_comm (x y : float) : x * y = y * x.
Proof. apply Prim2SF_inj. rewrite !mul_spec. apply SFmul_comm. Qed.

(** A difference that is not NaN is the opposite of the reversed one. *)
Lemma b64_sub_antisym (x y : float) :
  (x - y =? x - y) = true -> (x - y =? - (y - x)) = true.
Proof. rewrite !eqb_spec, opp_spec, !sub_spec. apply SFsub_antisym. Qed.

(** One component of the two cross products. *)
Lemma b64_cross_component (p q r t : float) :
  (p * q - r * t =? p * q - r * t) = true ->
  (p * q - r * t =? - (t * r - q * p)) = true.
Proof. rewrite (b64_mul_comm t r), (b64_mul_comm q p). apply b64_sub_antisym. Qed.

(** On binary64, [a.cross(b) == -(b.cross(a))] is true whenever no component
    of [a.cross(b)] is NaN, that is when [a.cross(b) == a.cross(b)]. *)
Lemma cross_anticommutative_b64 (a b : cref float) (s : state float) :
  result (ab <- Vec3d.cross a b ;; Vec3d.op_eq (Tmp ab) (Tmp ab)) s = true ->
  result (ab <- Vec3d.cross a b ;;
          ba <- Vec3d.cross b a ;;
          n <- Vec3d.op_neg (Tmp ba) ;;
          Vec3d.op_eq (Tmp ab) (Tmp n)) s = true.
Proof.
  run. destruct a as [la | va], b as [lb | vb]; cbn; intros Hself;
    repeat match type of Hself with
           | context [if ?c then _ else _] =>
               let E := fresh "E" in
               destruct c eqn:E; cbn in Hself; [ | discriminate Hself ];
               rewrite (b64_cross_component E); cbn
           end;
    exact (b64_cross_component Hself).
Qed.

(** A double that compares equal to zero is one of the two zeros. *)
Lemma b64_eq_zero (x : float) : (x =? 0) = true -> x = 0 \/ x = -0.
Proof.
  rewrite eqb_spec. change (Prim2SF 0) with (S754_zero false).
  rewrite <- (SF2Prim_Prim2SF x) at 2 3.
  destruct (Prim2SF x) as [sg | sg | | sg m e]; cbn; try discriminate.
  - intros _. destruct sg; [right | left]; reflexivity.
  - destruct sg; discriminate.
  - destruct sg; discriminate.
Qed.

(** A finite double is a zero or a number: neither a NaN nor an infinity. *)
Lemma b64_finite_cases (y : float) :
  is_finite y = true ->
  (exists sg, Prim2SF y = S754_zero sg) \/ (exists sg m e, Prim2SF y = S754_finite sg m e).
Proof.
  unfold is_finite, is_nan, is_infinity. rewrite !eqb_spec, abs_spec.
  change (Prim2SF infinity) with (S754_infinity false).
  destruct (Prim2SF y) as [sg | sg | | sg m e].
  - intros _. left. now exists sg.
  - destruct sg; cbn; discriminate.
  - cbn. discriminate.
  - intros _. right. now exists sg, m, e.
Qed.

(** Zero times a finite double compares equal to zero. *)
Lemma b64_zero_times_finite (x y : float) :
  (x =? 0) = true -> is_finite y = true ->
  (x * y =? 0) = true /\ (y * x =? 0) = true.
Proof.
  intros Hx Hy. rewrite !eqb_spec, !mul_spec.
  change (Prim2SF 0) with (S754_zero false).
  assert (Hzx : exists sg, Prim2SF x = S754_zero sg).
  { destruct (@b64_eq_zero x Hx) as [-> | ->]; eexists; reflexivity. }
  destruct Hzx as [sx ->].
  destruct (@b64_finite_cases y Hy) as [[sg ->] | (sg & m & e & ->)]; split; reflexivity.
Qed.

(** The length of a binary64 vector whose components compare equal to zero
    compares equal to zero. *)
Lemma b64_zero_vector_length (this : loc) (s : state float) :
  result (Vec3d.op_eq (Obj this) (Tmp (Vec3d.Vec3d_scalar d0))) s = true ->
  (result (Vec3d.length (Obj this)) s == d0)%dbl = true.
Proof.
  run. cbn.
  destruct (_vec0 (mem s this) =? 0) eqn:Ex; cbn; [ | discriminate].
  destruct (_vec1 (mem s this) =? 0) eqn:Ey; cbn; [ | discriminate].
  intros Ez.
  destruct (b64_eq_zero Ex) as [-> | ->], (b64_eq_zero Ey) as [-> | ->],
           (b64_eq_zero Ez) as [-> | ->]; reflexivity.
Qed.

(** On binary64, when one length compares equal to zero and the other is
    finite, [angle] returns 0. *)
Lemma angle_zero_length_b64 (acos : float -> float) (a b : cref float) (s : state float) :
  (result (Vec3d.length a) s == d0)%dbl = true
  /\ is_finite (result (Vec3d.length b) s) = true
  \/ (result (Vec3d.length b) s == d0)%dbl = true
     /\ is_finite (result (Vec3d.length a) s) = true ->
  result (Vec3d.angle acos a b) s = 0.
Proof.
  intros Hz. destruct (angle_value acos a b s) as [-> _]. cbv zeta.
  replace (result (Vec3d.length a) s * result (Vec3d.length b) s == d0)%dbl with true;
    [reflexivity | ].
  symmetry. destruct Hz as [[Ha Hb] | [Hb Ha]].
  - exact (proj1 (@b64_zero_times_finite _ _ Ha Hb)).
  - exact (proj2 (@b64_zero_times_finite _ _ Hb Ha)).
Qed.

End Binary64.

(** ** [orthogonal] *)

(** C6: on every carrier [v.orthogonal()] is (y+z, z-x, -x-y); in exact
    arithmetic its inner product with [v] is zero, for every [v], the nonzero
    ones among them. *)
Theorem orthogonal_is_orthogonal :
  (forall (D : Type) (HD : Double D) (v : cref D) (s : state D),
      result (Vec3d.orthogonal v) s
      = mkVec3d (_vec1 (deref v s) + _vec2 (deref v s))%dbl
                (_vec2 (deref v s) - _vec0 (deref v s))%dbl
                (- _vec0 (deref v s) - _vec1 (deref v s))%dbl)
  /\ (forall (v : cref R) (s : state R),
      result (o <- Vec3d.orthogonal v ;; Vec3d.dot v (Tmp o)) s = 0%R).
Proof.
  split.
  - intros D HD v s. exact (proj1 (orthogonal_value v s)).
  - exact orthogonal_dot_exact.
Qed.

(** A nonzero vector whose [orthogonal()] is the zero vector: (1, -1, 1). *)
Example orthogonal_can_be_zero (s : state R) :
  result (Vec3d.orthogonal (Tmp (mkVec3d 1 (-1) 1)%R)) s = mkVec3d 0%R 0%R 0%R.
Proof. run. cbn. f_equal; ring. Qed.

(** ** Anti-commutativity of [cross], and [angle] *)

(** C5, as the code has it: [cross] computes the right-handed product on
    every carrier; [a.cross(b) == -(b.cross(a))] is true for every pair in
    exact arithmetic, and on binary64 for every pair whose product has no NaN
    component ([a.cross(b) == a.cross(b)]). *)
Theorem cross_anticommutative :
  (forall (D : Type) (HD : Double D) (a b : cref D) (s : state D),
      result (Vec3d.cross a b) s
      = mkVec3d
          (_vec1 (deref a s) * _vec2 (deref b s) - _vec2 (deref a s) * _vec1 (deref b s))%dbl
          (_vec2 (deref a s) * _vec0 (deref b s) - _vec0 (deref a s) * _vec2 (deref b s))%dbl
          (_vec0 (deref a s) * _vec1 (deref b s) - _vec1 (deref a s) * _vec0 (deref b s))%dbl)
  /\ (forall (a b : cref R) (s : state R),
      result (ab <- Vec3d.cross a b ;;
              ba <- Vec3d.cross b a ;;
              n <- Vec3d.op_neg (Tmp ba) ;;
              Vec3d.op_eq (Tmp ab) (Tmp n)) s = true)
  /\ (forall (a b : cref float) (s : state float),
      result (ab <- Vec3d.cross a b ;; Vec3d.op_eq (Tmp ab) (Tmp ab)) s = true ->
      result (ab <- Vec3d.cross a b ;;
              ba <- Vec3d.cross b a ;;
              n <- Vec3d.op_neg (Tmp ba) ;;
              Vec3d.op_eq (Tmp ab) (Tmp n)) s = true).
Proof.
  split; [ | split].
  - intros D HD a b s. exact (proj1 (cross_value a b s)).
  - exact cross_anticommutative_exact.
  - exact cross_anticommutative_b64.
Qed.

(** The binary64 part of C5 at (1, 2, 3) and (4, 5, 6): no component of the
    product (-3, 6, -3) is NaN, and the comparison is true. *)
Lemma cross_anticommutative_witness :
  result (ab <- Vec3d.cross (Obj 0) (Obj 1) ;; Vec3d.op_eq (Tmp ab) (Tmp ab)) two_vectors
  = true
  /\ result (ab <- Vec3d.cross (Obj 0) (Obj 1) ;;
             ba <- Vec3d.cross (Obj 1) (Obj 0) ;;
             n <- Vec3d.op_neg (Tmp ba) ;;
             Vec3d.op_eq (Tmp ab) (Tmp n)) two_vectors = true.
Proof.
  split; [reflexivity | ].
  apply (proj2 (proj2 cross_anticommutative) (Obj 0) (Obj 1) two_vectors). reflexivity.
Defined.

(** C5 fails as stated on binary64: for the finite vectors (2^600, 2^600, 0)
    and (2^601, 2^600, 0) both products of the third component overflow,
    their difference is NaN, and [a.cross(b) == -(b.cross(a))] is false. *)
Lemma cross_overflow_not_anticommutative :
  result (ab <- Vec3d.cross (Obj 0) (Obj 1) ;;
          ba <- Vec3d.cross (Obj 1) (Obj 0) ;;
          n <- Vec3d.op_neg (Tmp ba) ;;
          Vec3d.op_eq (Tmp ab) (Tmp n)) huge = false.
Proof. vm_compute. reflexivity. Qed.

(** C3, as the code has it: [a.angle(b)] is [acos] of the inner product over
    the product of the two lengths when that product does not compare equal to
    zero, on every carrier.  It is 0 when either length is zero: always in
    exact arithmetic, and on binary64 whenever the other length is finite; so
    the zero vector is at angle 0 to every vector of finite length.  In exact
    arithmetic a vector of nonzero length is at angle 0 to itself. *)
Theorem angle_branches :
  (forall (D : Type) (HD : Double D) (acos : D -> D) (a b : cref D) (s : state D),
      result (Vec3d.angle acos a b) s
      = if (result (Vec3d.length a) s * result (Vec3d.length b) s == d0)%dbl
        then d0
        else acos (result (Vec3d.dot a b) s
                   / (result (Vec3d.length a) s * result (Vec3d.length b) s))%dbl)
  /\ (forall (a b : cref R) (s : state R),
      (result (Vec3d.length a) s * result (Vec3d.length b) s <> 0 ->
       result (Vec3d.angle Ratan.acos a b) s
       = Ratan.acos (result (Vec3d.dot a b) s
                     / (result (Vec3d.length a) s * result (Vec3d.length b) s)))
      /\ (result (Vec3d.length a) s = 0 \/ result (Vec3d.length b) s = 0 ->
          result (Vec3d.angle Ratan.acos a b) s = 0)
      /\ result (Vec3d.angle Ratan.acos (Tmp (Vec3d.Vec3d_xyz 0 0 0)) b) s = 0
      /\ (result (Vec3d.length a) s <> 0 ->
          result (Vec3d.angle Ratan.acos a a) s = 0))%R
  /\ (forall (acos : float -> float) (a b : cref float) (s : state float),
      ((result (Vec3d.length a) s == d0)%dbl = true
       /\ is_finite (result (Vec3d.length b) s) = true
       \/ (result (Vec3d.length b) s == d0)%dbl = true
          /\ is_finite (result (Vec3d.length a) s) = true ->
       result (Vec3d.angle acos a b) s = 0%float)
      /\ (is_finite (result (Vec3d.length b) s) = true ->
          result (Vec3d.angle acos (Tmp (Vec3d.Vec3d_xyz 0 0 0)%float) b) s = 0%float
          /\ result (Vec3d.angle acos b (Tmp (Vec3d.Vec3d_xyz 0 0 0)%float)) s = 0%float)).
Proof.
  split; [ | split].
  - intros D HD acos a b s. exact (proj1 (angle_value acos a b s)).
  - exact angle_exact.
  - intros acos a b s. split.
    + apply angle_zero_length_b64.
    + intros Hb. split; apply angle_zero_length_b64; [left | right]; (split; [reflexivity | exact Hb]).
Qed.

(** The binary64 part of C3 at (3, 0, 4): its length 5 is finite, and the
    zero vector is at angle 0 to it. *)
Lemma angle_branches_witness :
  is_finite (result (Vec3d.length (Obj 0)) b345) = true
  /\ result (Vec3d.angle (fun q => q) (Tmp (Vec3d.Vec3d_xyz 0 0 0)%float) (Obj 0)) b345
     = 0%float.
Proof.
  assert (Hfin : is_finite (result (Vec3d.length (Obj 0)) b345) = true) by reflexivity.
  split; [exact Hfin | ].
  exact (proj1 (proj2 (proj2 (proj2 angle_branches) (fun q => q) (Obj 0) (Obj 0) b345) Hfin)).
Defined.

(** The rule of the C standard is satisfiable: a function that is NaN outside
    [-1, 1] obeys it, whatever it is inside. *)
Example acos_outside_domain_inhabited :
  acos_outside_domain (fun x => if (abs x <=? 1)%float then 0%float else nan).
Proof. intros x Hx. now rewrite Hx. Qed.

(** C3 fails as stated on binary64: the zero vector has length zero, but
    against the finite vector (2^600, 2^600, 0), whose length overflows, the
    product of the lengths is NaN, the guard does not fire and the result
    does not compare equal to 0. *)
Lemma angle_overflow_counterexample :
  (result (Vec3d.length (Tmp (Vec3d.Vec3d_xyz 0 0 0)%float)) huge == d0)%dbl = true
  /\ forall acos, acos_outside_domain acos ->
     (result (Vec3d.angle acos (Tmp (Vec3d.Vec3d_xyz 0 0 0)%float) (Obj 0%nat)) huge == d0)%dbl
     = false.
Proof.
  split; [vm_compute; reflexivity | ].
  intros acos Hacos.
  replace (result (Vec3d.angle acos (Tmp (Vec3d.Vec3d_xyz 0 0 0)%float) (Obj 0%nat)) huge)
    with (acos nan) by (vm_compute; reflexivity).
  rewrite (Hacos nan) by (vm_compute; reflexivity).
  vm_compute. reflexivity.
Qed.

(** The argument of [acos] is not clamped: on binary64 the vector (1, 1, 1)
    has nonzero length, but the quotient for its angle to itself is rounded
    to 1 + 2^-52, outside the domain of [acos], and the result is within no
    tolerance of 0. *)
Lemma self_angle_outside_domain :
  (result (Vec3d.length (Obj 0%nat)) ones == d0)%dbl = false
  /\ forall acos, acos_outside_domain acos ->
     forall tol : float,
       (abs (result (Vec3d.angle acos (Obj 0%nat) (Obj 0%nat)) ones - 0) <=? tol)%float = false.
Proof.
  split; [vm_compute; reflexivity | ].
  intros acos Hacos tol.
  replace (result (Vec3d.angle acos (Obj 0%nat) (Obj 0%nat)) ones)
    with (acos 0x1.0000000000001p+0%float) by (vm_compute; reflexivity).
  rewrite (Hacos 0x1.0000000000001p+0%float) by (vm_compute; reflexivity).
  rewrite leb_spec.
  replace (Prim2SF (abs (nan - 0))) with S754_nan by (vm_compute; reflexivity).
  reflexivity.
Qed.

(** ** The zero vector under [normalized] and [normalize] *)

(** C2: a vector of length 0 is the zero vector.  In exact arithmetic, when
    [length()] is 0 the vector is (0, 0, 0), [normalized()] returns (0, 0, 0)
    and [normalize()] leaves (0, 0, 0).  On binary64, for every vector that
    compares equal to [Vec3d(0.0)], whatever the signs of its zeros,
    [length()] compares equal to 0, [normalized()] returns (0, 0, 0) and
    after [normalize()] the vector still compares equal to [Vec3d(0.0)].  In
    both, the state is left as it was: nothing is written and no division is
    executed. *)
Theorem zero_vector_normalize :
  (forall (this : loc) (s : state R),
      result (Vec3d.length (Obj this)) s = 0%R ->
      mem s this = mkVec3d 0%R 0%R 0%R
      /\ result (Vec3d.normalized (Obj this)) s = mkVec3d 0%R 0%R 0%R
      /\ after (Vec3d.normalized (Obj this)) s = s
      /\ after (Vec3d.normalize this) s = s
      /\ mem (after (Vec3d.normalize this) s) this = mkVec3d 0%R 0%R 0%R)
  /\ (forall (this : loc) (s : state float),
      result (Vec3d.op_eq (Obj this) (Tmp (Vec3d.Vec3d_scalar d0))) s = true ->
      (result (Vec3d.length (Obj this)) s == d0)%dbl = true
      /\ result (Vec3d.normalized (Obj this)) s = mkVec3d 0%float 0%float 0%float
      /\ after (Vec3d.normalized (Obj this)) s = s
      /\ after (Vec3d.normalize this) s = s
      /\ result (Vec3d.op_eq (Obj this) (Tmp (Vec3d.Vec3d_scalar d0)))
           (after (Vec3d.normalize this) s) = true).
Proof.
  split.
  - intros this s Hlen.
    assert (Hzero : mem s this = mkVec3d 0%R 0%R 0%R).
    { rewrite <- (exact_zero_length (Obj this) s Hlen). unfold deref. run. cbn.
      symmetry. apply Vec3d_eta. }
    assert (Hb : (result (Vec3d.length (Obj this)) s == d0)%dbl = true)
      by (apply Reqb_true; exact Hlen).
    destruct (zero_length_normalize this s Hb) as (Hv & Hs & Hp).
    repeat split; try assumption. now rewrite Hp.
  - intros this s Heq.
    pose proof (b64_zero_vector_length this s Heq) as Hb.
    destruct (zero_length_normalize this s Hb) as (Hv & Hs & Hp).
    repeat split; try assumption. now rewrite Hp.
Qed.

(** On binary64, at (-0, 0, -0): it compares equal to [Vec3d(0.0)], and after
    [normalize()] it still does. *)
Lemma zero_vector_normalize_witness :
  result (Vec3d.op_eq (Obj 0) (Tmp (Vec3d.Vec3d_scalar d0))) signed_zeros = true
  /\ result (Vec3d.normalized (Obj 0)) signed_zeros = mkVec3d 0%float 0%float 0%float
  /\ after (Vec3d.normalize 0) signed_zeros = signed_zeros.
Proof.
  assert (Heq : result (Vec3d.op_eq (Obj 0) (Tmp (Vec3d.Vec3d_scalar d0))) signed_zeros = true)
    by reflexivity.
  destruct (proj2 zero_vector_normalize 0 signed_zeros Heq) as (_ & Hv & _ & Hp & _).
  split; [exact Heq | split; [exact Hv | exact Hp]].
Defined.

(** ** The driver: [quit] and the loop of [main] *)

Lemma quit_cases (str : string) :
  (str = "quit"%string \/ str = "q"%string) /\ quit str = Exits 0
  \/ (str <> "quit"%string /\ str <> "q"%string) /\ quit str = Returns.
Proof.
  unfold quit.
  destruct (String.eqb_spec str "quit") as [-> | Hquit]; cbn; auto.
  destruct (String.eqb_spec str "q") as [-> | Hq]; cbn; auto.
Qed.

(** C8: [quit] ends the process, with status 0, exactly on the lines ["quit"]
    and ["q"]; on every other line it returns, and the turn of [main] that
    read the line hands it to [setExpr]. *)
Theorem quit_exits_iff (str : string) :
  ((exists status, quit str = Exits status) <-> str = "quit"%string \/ str = "q"%string)
  /\ (forall status, quit str = Exits status -> status = 0%Z)
  /\ (str <> "quit"%string -> str <> "q"%string ->
      quit str = Returns /\ main_turn str false = Submit str).
Proof.
  destruct (quit_cases str) as [[Hs Hq] | [[H1 H2] Hq]]; (split; [ | split]).
  - split; [intros _; exact Hs | intros _; now exists 0%Z].
  - intros status. rewrite Hq. congruence.
  - intros N1 N2. destruct Hs; contradiction.
  - split; [intros [status Hex]; congruence | intros [E | E]; contradiction].
  - intros status. rewrite Hq. discriminate.
  - intros _ _. unfold main_turn. now rewrite Hq.
Qed.

(** The loop of [main] always ends with status 0, within one turn more than
    there are reads, and no submitted text is ["quit"] or ["q"]. *)
Lemma main_loop_exits (cin : list (string * bool)) :
  exists submitted,
    main_loop (S (List.length cin)) cin = Some (submitted, 0%Z)
    /\ Forall (fun str => str <> "quit"%string /\ str <> "q"%string) submitted.
Proof.
  induction cin as [ | [line eof] rest IH].
  - exists []. split; [reflexivity | constructor].
  - destruct IH as (submitted & Hrun & Hall).
    cbn [List.length]. remember (S (List.length rest)) as fuel eqn:Hfuel.
    cbn [main_loop]. unfold main_turn.
    destruct eof.
    + exists []. split; [reflexivity | constructor].
    + destruct (quit_cases line) as [[_ Hq] | [Hne Hq]]; rewrite Hq.
      * exists []. split; [reflexivity | constructor].
      * exists (line :: submitted). rewrite Hrun. split; [reflexivity | ].
        constructor; assumption.
Qed.

Example main_loop_run :
  main_loop 4 [("a + b"%string, false); ("quit"%string, false); ("c"%string, false)]
  = Some (["a + b"%string], 0%Z).
Proof. reflexivity. Qed.

(** ** The stand-in function and the resolution hooks *)

Section Resolution.
Variable SeExprVarRef : Type.
Variable SeExprType : Type.
Variable SeExprVarEnv : Type.
Variable SeExprFuncNode : Type.
Variable isValid : SeExprType -> bool.
Variable numChildren : SeExprFuncNode -> nat.
Variable isStrArg : SeExprFuncNode -> nat -> bool.
Variable child_prep :
  SeExprFuncNode -> nat -> bool -> SeExprVarEnv -> SeExprType * SeExprVarEnv.

(** C4: [resolveVar] answers the null pointer for every name, never a
    variable reference; [resolveFunc] answers, for every name, the address of
    the one member [dummyFunc], which the constructor builds from
    [dummyFuncX] with the bounds 0 and 16. *)
Theorem stub_resolution (this : PatternExpr.PatternExpr) (name : string) :
  PatternExpr.resolveVar SeExprVarRef this name = None
  /\ (forall ref, PatternExpr.resolveVar SeExprVarRef this name <> Some ref)
  /\ PatternExpr.resolveFunc this name = Some (PatternExpr.dummyFunc this)
  /\ (forall other, PatternExpr.resolveFunc this other = PatternExpr.resolveFunc this name)
  /\ PatternExpr.resolveFunc PatternExpr.ctor name
     = Some (PatternExpr.mkSeExprFunc (PatternExpr.dummyFuncX PatternExpr.ctor) 0 16).
Proof.
  unfold PatternExpr.resolveVar, PatternExpr.resolveFunc.
  repeat apply conj; try reflexivity.
  intros ref. discriminate.
Qed.

(** The loop of [prep] over the children in [l] is the loop over those of
    them that are not tag arguments, each prepared with [wantScalar] false
    in the environment the previous ones left, its validity joined to
    [valid] by [&]. *)
Lemma prep_loop_over_children (node : SeExprFuncNode) (l : list nat)
  (valid : bool) (env : SeExprVarEnv) :
  fold_left (PatternExpr.prep_turn isValid isStrArg child_prep node) l (valid, env)
  = fold_left
      (fun (acc : bool * SeExprVarEnv) (i : nat) =>
         let (v, e) := acc in
         let (t, e') := child_prep node i false e in
         (andb v (isValid t), e'))
      (filter (fun i => negb (isStrArg node i)) l) (valid, env).
Proof.
  revert valid env. induction l as [ | i l IH]; intros valid env; [reflexivity | ].
  cbn [fold_left filter]. unfold PatternExpr.prep_turn at 2.
  destruct (isStrArg node i); cbn [negb].
  - apply IH.
  - cbn [fold_left]. destruct (child_prep node i false env) as [t env']. apply IH.
Qed.

(** C9: [prep] returns [wanted], whatever the node, its children and the
    flag [valid] the loop computes, with the environment the loop leaves.
    The loop prepares the children that are not tag arguments, each once, in
    order, with [wantScalar] false and in the environment the previous ones
    left, and joins their validity into [valid]; tag arguments are skipped.
    [valid] is not read: a child that fails preparation changes nothing in
    what [prep] returns. *)
Theorem prep_returns_wanted (this : PatternExpr.DummyFuncX) (node : SeExprFuncNode)
  (wanted : SeExprType) (env : SeExprVarEnv) :
  fst (PatternExpr.prep isValid numChildren isStrArg child_prep this node wanted env)
  = wanted
  /\ snd (PatternExpr.prep isValid numChildren isStrArg child_prep this node wanted env)
     = snd (PatternExpr.prep_loop isValid numChildren isStrArg child_prep node env)
  /\ PatternExpr.prep_loop isValid numChildren isStrArg child_prep node env
     = fold_left
         (fun (acc : bool * SeExprVarEnv) (i : nat) =>
            let (v, e) := acc in
            let (t, e') := child_prep node i false e in
            (andb v (isValid t), e'))
         (expr_children numChildren isStrArg node) (true, env).
Proof.
  unfold PatternExpr.prep.
  split; [ | split].
  - destruct (PatternExpr.prep_loop isValid numChildren isStrArg child_prep node env)
      as [valid env']. reflexivity.
  - destruct (PatternExpr.prep_loop isValid numChildren isStrArg child_prep node env)
      as [valid env']. reflexivity.
  - unfold PatternExpr.prep_loop, expr_children. apply prep_loop_over_children.
Qed.

End Resolution.

(** A call [f(x, "tag")] whose argument 0 prepares to an invalid type (types
    are [bool] here, [false] the invalid one): the loop ends with [valid]
    false, having skipped the tag argument 1, and [prep] still returns the
    valid [wanted]. *)
Example prep_ignores_invalid_child :
  let isValid := fun t : bool => t in
  let numChildren := fun _ : unit => 2 in
  let isStrArg := fun (_ : unit) i => Nat.eqb i 1 in
  let child_prep := fun (_ : unit) (i : nat) (_ : bool) (env : list nat) => (false, i :: env) in
  PatternExpr.prep_loop isValid numChildren isStrArg child_prep tt [] = (false, [0])
  /\ PatternExpr.prep isValid numChildren isStrArg child_prep
       (PatternExpr.mkDummyFuncX false) tt true []
     = (true, [0]).
Proof. split; reflexivity. Qed.

(** * Further properties of the code *)

(** ** Division in [normalized], [normalize] and [angle] *)

Section Divisors.
Context {D : Type} `{Double D}.

(** X1: whatever the vector, a division that [normalized()] or [normalize()]
    executes has the length as divisor, and that length is not zero. *)
Theorem normalize_divides_by_nonzero_length (this : loc) (s : state D) :
  (forall d, In d (divs (after (Vec3d.normalized (Obj this)) s)) ->
             In d (divs s)
             \/ d = result (Vec3d.length (Obj this)) s /\ (d == d0)%dbl = false)
  /\ (forall d, In d (divs (after (Vec3d.normalize this) s)) ->
             In d (divs s)
             \/ d = result (Vec3d.length (Obj this)) s /\ (d == d0)%dbl = false).
Proof.
  destruct (normalize_divisor_nonzero this s) as [Hv Hp]. cbv zeta in Hv, Hp.
  split; intros d Hd.
  - destruct Hv as [E | [Ht E]]; rewrite E in Hd; [now left | ].
    destruct Hd as [<- | Hd]; [right | now left].
    split; [reflexivity | ]. unfold truthy in Ht. now apply negb_true_iff in Ht.
  - destruct Hp as [E | [Ht E]]; rewrite E in Hd; [now left | ].
    destruct Hd as [<- | Hd]; [right | now left].
    split; [reflexivity | ]. unfold truthy in Ht. now apply negb_true_iff in Ht.
Qed.

(** X2: on a vector whose length is not zero, the in-place [normalize()]
    leaves in the receiver exactly what [normalized()] returns, and touches
    no other object. *)
Theorem normalize_agrees_with_normalized (this : loc) (s : state D) :
  (result (Vec3d.length (Obj this)) s == d0)%dbl = false ->
  mem (after (Vec3d.normalize this) s) this = result (Vec3d.normalized (Obj this)) s
  /\ forall l, l <> this -> mem (after (Vec3d.normalize this) s) l = mem s l.
Proof.
  run. cbn. unfold truthy. intros ->. cbn. store. split; [reflexivity | ].
  intros l Hl. apply Nat.eqb_neq in Hl. store. reflexivity.
Qed.

(** X3: a division that [angle] executes has the product of the two lengths
    as divisor, and that product does not compare equal to zero. *)
Theorem angle_divides_by_nonzero_product (acos : D -> D) (a b : cref D) (s : state D) :
  forall d, In d (divs (after (Vec3d.angle acos a b) s)) ->
            In d (divs s)
            \/ d = (result (Vec3d.length a) s * result (Vec3d.length b) s)%dbl
               /\ (d == d0)%dbl = false.
Proof.
  intros d. destruct (angle_value acos a b s) as [_ ->]. cbv zeta.
  destruct (_ == d0)%dbl eqn:E; [now left | ].
  intros [<- | Hd]; [right; now split | now left].
Qed.

End Divisors.

(** In binary64, (3, 0, 4) against itself: the one division is by 25. *)
Lemma angle_divides_by_nonzero_product_witness :
  In 25%float (divs (after (Vec3d.angle (fun q => q) (Obj 0) (Obj 0)) b345))
  /\ (25%float == d0)%dbl = false.
Proof.
  assert (Hin : In 25%float (divs (after (Vec3d.angle (fun q => q) (Obj 0) (Obj 0)) b345)))
    by (left; reflexivity).
  split; [exact Hin | ].
  destruct (angle_divides_by_nonzero_product (fun q => q) (Obj 0) (Obj 0) b345 25%float Hin)
    as [[] | [_ Hnz]].
  exact Hnz.
Defined.

(** (3, 0, 4) in binary64 has length 5; [normalize()] leaves what
    [normalized()] returns. *)
Lemma normalize_agrees_with_normalized_witness :
  (result (Vec3d.length (Obj 0)) b345 == d0)%dbl = false
  /\ mem (after (Vec3d.normalize 0) b345) 0 = result (Vec3d.normalized (Obj 0)) b345.
Proof.
  split; [reflexivity | ].
  apply (normalize_agrees_with_normalized 0 b345). reflexivity.
Defined.

(** Scaling by the reciprocal of the root of the sum of squares gives a sum
    of squares of 1. *)
Lemma unit_after_scaling (x y z : R) :
  R_sqrt.sqrt (x * x + y * y + z * z) <> 0%R ->
  (x * (1 / R_sqrt.sqrt (x * x + y * y + z * z)) * (x * (1 / R_sqrt.sqrt (x * x + y * y + z * z)))
   + y * (1 / R_sqrt.sqrt (x * x + y * y + z * z)) * (y * (1 / R_sqrt.sqrt (x * x + y * y + z * z)))
   + z * (1 / R_sqrt.sqrt (x * x + y * y + z * z)) * (z * (1 / R_sqrt.sqrt (x * x + y * y + z * z))))%R
  = 1%R.
Proof.
  set (q := (x * x + y * y + z * z)%R). set (L := R_sqrt.sqrt q). intros HL.
  assert (Hq : (L * L = q)%R) by (apply sqrt_sqrt; unfold q; nra).
  replace (x * (1 / L) * (x * (1 / L)) + y * (1 / L) * (y * (1 / L))
           + z * (1 / L) * (z * (1 / L)))%R
    with (q * (1 / L * (1 / L)))%R by (unfold q; ring).
  rewrite <- Hq. field. exact HL.
Qed.

(** X4: in exact arithmetic the normalized form of a vector of nonzero
    length has length 1, and normalizing it again changes nothing. *)
Theorem normalized_has_unit_length (v : cref R) (s : state R) :
  result (Vec3d.length v) s <> 0%R ->
  result (n <- Vec3d.normalized v ;; Vec3d.length (Tmp n)) s = 1%R
  /\ result (n <- Vec3d.normalized v ;; Vec3d.normalized (Tmp n)) s
     = result (Vec3d.normalized v) s.
Proof.
  run. destruct v as [l | [x y z]]; cbn; unfold truthy; cbn; intros Hlen;
    apply Reqb_false in Hlen as Hb; rewrite Hb; cbn;
    rewrite (unit_after_scaling _ _ _ Hlen), sqrt_1;
    replace (Reqb 1 0) with false by (symmetry; apply Reqb_false; lra);
    cbn; split; [reflexivity | f_equal; field; lra | reflexivity | f_equal; field; lra].
Qed.

(** (3, 0, 4) has length 5; its normalized form has length 1. *)
Lemma normalized_has_unit_length_witness :
  (result (Vec3d.length (Obj 0%nat)) exact345 <> 0
   /\ result (n <- Vec3d.normalized (Obj 0%nat) ;; Vec3d.length (Tmp n)) exact345 = 1)%R.
Proof.
  assert (Hlen : (result (Vec3d.length (Obj 0%nat)) exact345 <> 0)%R).
  { destruct (length_value (Obj 0%nat) exact345) as [-> _]. cbn.
    intros Hs. apply sqrt_eq_0 in Hs; lra. }
  split; [exact Hlen | ].
  exact (proj1 (normalized_has_unit_length (Obj 0%nat) exact345 Hlen)).
Defined.

(** ** Assignment, comparison and negation *)

Section Copying.
Context {D : Type} `{Double D}.

(** X5: [operator=] returns the receiver, leaves in it the components of its
    argument and touches no other object; assigning an object to itself
    leaves it as it was. *)
Theorem assignment_copies (this : loc) (v : cref D) (s : state D) :
  result (Vec3d.op_assign this v) s = this
  /\ mem (after (Vec3d.op_assign this v) s) this = deref v s
  /\ (forall l, l <> this -> mem (after (Vec3d.op_assign this v) s) l = mem s l)
  /\ mem (after (Vec3d.op_assign this (Obj this)) s) this = mem s this
  /\ divs (after (Vec3d.op_assign this v) s) = divs s.
Proof.
  repeat apply conj.
  - run. destruct v; reflexivity.
  - alias v this; run; cbn; store; reflexivity.
  - intros l' Hl'. apply Nat.eqb_neq in Hl'. run. destruct v; cbn; store; reflexivity.
  - run. cbn. store. apply Vec3d_eta.
  - run. destruct v; reflexivity.
Qed.

(** What [operator==] computes, on every carrier: the conjunction of the
    three component comparisons; it only reads. *)
Lemma op_eq_value (a b : cref D) (s : state D) :
  result (Vec3d.op_eq a b) s
  = ((_vec0 (deref a s) == _vec0 (deref b s))%dbl
     && (_vec1 (deref a s) == _vec1 (deref b s))%dbl
     && (_vec2 (deref a s) == _vec2 (deref b s))%dbl)%bool
  /\ after (Vec3d.op_eq a b) s = s.
Proof.
  run. destruct a, b; cbn;
    repeat match goal with
           | |- context [if ?c then _ else _] => destruct c; cbn
           end;
    split; reflexivity.
Qed.

End Copying.

(** X6: in exact arithmetic [a == b] is true exactly when the two vectors
    have the same components, [a != b] is its negation, and neither changes
    the state. *)
Theorem equality_is_componentwise (a b : cref R) (s : state R) :
  (result (Vec3d.op_eq a b) s = true <-> deref a s = deref b s)
  /\ result (Vec3d.op_ne a b) s = negb (result (Vec3d.op_eq a b) s)
  /\ after (Vec3d.op_eq a b) s = s
  /\ after (Vec3d.op_ne a b) s = s.
Proof.
  destruct (op_eq_value a b s) as [Hv Hs].
  assert (Hne : Vec3d.op_ne a b s = (negb (result (Vec3d.op_eq a b) s), s)).
  { unfold Vec3d.op_ne, bind, ret, result. unfold after in Hs.
    destruct (Vec3d.op_eq a b s) as [e s']. cbn in *. now subst s'. }
  split; [ | split; [ | split]].
  - rewrite Hv. cbn. rewrite !andb_true_iff, !Reqb_true.
    destruct (deref a s) as [x y z], (deref b s) as [x' y' z']. cbn.
    split.
    + intros [[E1 E2] E3]. congruence.
    + intros E. injection E as E1 E2 E3. auto.
  - unfold result at 1. now rewrite Hne.
  - exact Hs.
  - unfold after at 1. now rewrite Hne.
Qed.

(** X7: in exact arithmetic [negate()] leaves in the receiver what unary [-]
    returns, negating twice restores the vector, and no other object is
    touched. *)
Theorem negate_is_unary_minus (this : loc) (s : state R) :
  mem (after (Vec3d.negate this) s) this = result (Vec3d.op_neg (Obj this)) s
  /\ mem (after (Vec3d.negate this ;; Vec3d.negate this) s) this = mem s this
  /\ forall l, l <> this -> mem (after (Vec3d.negate this) s) l = mem s l.
Proof.
  repeat apply conj.
  - run. cbn. store. f_equal; ring.
  - run. cbn. store. destruct (mem s this) as [x y z]. cbn. f_equal; ring.
  - intros l Hl. apply Nat.eqb_neq in Hl. run. cbn. store. reflexivity.
Qed.

(** X8: in exact arithmetic, chained through the reference each returns,
    [(v += w) -= w] restores [v] when [w] is not [v] itself, and
    [(v *= d) /= d] restores [v] when [d] is not zero; [(v += v) -= v] leaves
    the zero vector. *)
Theorem compound_forms_undo (this : loc) (w : cref R) (d : R) (s : state R) :
  w <> Obj this ->
  d <> 0%R ->
  mem (after (r <- Vec3d.op_add_assign this w ;; Vec3d.op_sub_assign r w) s) this
  = mem s this
  /\ mem (after (r <- Vec3d.op_mul_assign this d ;; Vec3d.op_div_assign r d) s) this
     = mem s this
  /\ mem (after (r <- Vec3d.op_add_assign this (Obj this) ;;
                 Vec3d.op_sub_assign r (Obj this)) s) this
     = mkVec3d 0%R 0%R 0%R.
Proof.
  intros Hw Hd. repeat apply conj.
  - alias w this; [congruence | | ]; run; cbn; store;
      destruct (mem s this) as [x y z]; cbn; f_equal; ring.
  - run. cbn. store. destruct (mem s this) as [x y z]. cbn. f_equal; field; exact Hd.
  - run. cbn. store. f_equal; ring.
Qed.

(** At (3, 0, 4), with [w] the object next to it and [d = 2]. *)
Lemma compound_forms_undo_witness :
  Obj 1 <> Obj (D := R) 0
  /\ (2 <> 0)%R
  /\ mem (after (r <- Vec3d.op_add_assign 0 (Obj 1) ;; Vec3d.op_sub_assign r (Obj 1))
            exact_axis) 0
     = mkVec3d 3%R 0%R 4%R.
Proof.
  assert (Hw : Obj 1 <> Obj (D := R) 0) by discriminate.
  assert (Hd : (2 <> 0)%R) by lra.
  repeat split; [exact Hw | exact Hd | ].
  exact (proj1 (compound_forms_undo (this := 0) (w := Obj 1) exact_axis Hw Hd)).
Defined.

(** ** Products, lengths and angles *)

Section Symmetry.
Local Open Scope R_scope.

(** X9: in exact arithmetic [a.cross(b)] is orthogonal to [a] and to [b],
    [a.cross(a)] is the zero vector, and the squared length of [a.cross(b)]
    is (a.a)(b.b) - (a.b)^2. *)
Theorem cross_is_orthogonal_to_operands (a b : cref R) (s : state R) :
  result (c <- Vec3d.cross a b ;; Vec3d.dot a (Tmp c)) s = 0
  /\ result (c <- Vec3d.cross a b ;; Vec3d.dot b (Tmp c)) s = 0
  /\ result (Vec3d.cross a a) s = mkVec3d 0 0 0
  /\ result (c <- Vec3d.cross a b ;; Vec3d.dot (Tmp c) (Tmp c)) s
     = result (Vec3d.dot a a) s * result (Vec3d.dot b b) s
       - result (Vec3d.dot a b) s * result (Vec3d.dot a b) s.
Proof.
  run. destruct a, b; cbn; repeat apply conj; first [ring | f_equal; ring].
Qed.

(** The two inner products are the same float of the model, which has a
    single NaN. *)
Lemma dot_commutes_b64 (a b : cref float) (s : state float) :
  result (Vec3d.dot a b) s = result (Vec3d.dot b a) s.
Proof.
  run. destruct a, b; cbn;
    now rewrite (b64_mul_comm (_vec0 _)), (b64_mul_comm (_vec1 _)), (b64_mul_comm (_vec2 _)).
Qed.

(** X10: [a.dot(b)] and [b.dot(a)] are the same number in exact arithmetic.
    In binary64 one of them is a NaN exactly when the other is, and when
    they are not NaN they are the same double; which NaN it is, when it is
    one, is not said. *)
Theorem dot_is_symmetric :
  (forall (a b : cref R) (s : state R),
      result (Vec3d.dot a b) s = result (Vec3d.dot b a) s)
  /\ (forall (a b : cref float) (s : state float),
      is_nan (result (Vec3d.dot a b) s) = is_nan (result (Vec3d.dot b a) s)
      /\ (is_nan (result (Vec3d.dot a b) s) = false ->
          result (Vec3d.dot a b) s = result (Vec3d.dot b a) s)).
Proof.
  split.
  - intros a b s; run; destruct a, b; cbn; ring.
  - intros a b s. rewrite (dot_commutes_b64 a b s). split; [reflexivity | intros _; reflexivity].
Qed.

(** The exact length is not negative. *)
Lemma length_nonneg (v : cref R) (s : state R) : 0 <= result (Vec3d.length v) s.
Proof. destruct (length_value v s) as [-> _]. apply sqrt_pos. Qed.

(** X11: in exact arithmetic [length()] is a norm: it is not negative, its
    square is [v.dot(v)], it is zero only for the zero vector, and [v * d]
    has the length of [v] times the absolute value of [d]. *)
Theorem length_is_a_norm (v : cref R) (d : R) (s : state R) :
  0 <= result (Vec3d.length v) s
  /\ result (Vec3d.length v) s * result (Vec3d.length v) s = result (Vec3d.dot v v) s
  /\ (result (Vec3d.length v) s = 0 <-> deref v s = mkVec3d 0 0 0)
  /\ result (w <- Vec3d.op_mul v d ;; Vec3d.length (Tmp w)) s
     = Rabs d * result (Vec3d.length v) s.
Proof.
  split; [ | split; [ | split]].
  - apply length_nonneg.
  - apply length_sqr.
  - split; [apply exact_zero_length | ].
    destruct (length_value v s) as [-> _]. intros ->. cbn.
    replace (0 * 0 + 0 * 0 + 0 * 0) with 0 by ring. apply sqrt_0.
  - run. destruct v as [l | [x y z]]; cbn;
      match goal with
      | |- R_sqrt.sqrt ?q = _ * R_sqrt.sqrt ?p =>
          replace q with (d * d * p) by ring;
          rewrite sqrt_mult by nra;
          replace (d * d) with (Rsqr d) by reflexivity;
          now rewrite sqrt_Rsqr_abs
      end.
Qed.

(** The inequality of Cauchy and Schwarz, on components. *)
Lemma cauchy_schwarz (x y z a b c : R) :
  (x * a + y * b + z * c) * (x * a + y * b + z * c)
  <= (x * x + y * y + z * z) * (a * a + b * b + c * c).
Proof.
  assert (H1 := Rle_0_sqr (x * b - y * a)).
  assert (H2 := Rle_0_sqr (y * c - z * b)).
  assert (H3 := Rle_0_sqr (z * a - x * c)).
  unfold Rsqr in *. nra.
Qed.

(** X12: in exact arithmetic, for two vectors of nonzero length the quotient
    that [angle] hands to [acos] lies in [-1, 1], the angle lies in [0, PI],
    and its cosine times the two lengths is the inner product. *)
Theorem angle_is_the_angle (a b : cref R) (s : state R) :
  result (Vec3d.length a) s <> 0 ->
  result (Vec3d.length b) s <> 0 ->
  -1 <= result (Vec3d.dot a b) s / (result (Vec3d.length a) s * result (Vec3d.length b) s) <= 1
  /\ 0 <= result (Vec3d.angle acos a b) s <= PI
  /\ cos (result (Vec3d.angle acos a b) s)
     * (result (Vec3d.length a) s * result (Vec3d.length b) s)
     = result (Vec3d.dot a b) s.
Proof.
  intros Ha Hb.
  pose proof (length_nonneg a s) as Ha0. pose proof (length_sqr a s) as Haa.
  pose proof (length_nonneg b s) as Hb0. pose proof (length_sqr b s) as Hbb.
  set (la := result (Vec3d.length a) s) in *.
  set (lb := result (Vec3d.length b) s) in *.
  set (p := result (Vec3d.dot a b) s).
  assert (Hcs : p * p <= (la * la) * (lb * lb)).
  { rewrite Haa, Hbb. unfold p.
    destruct (dot_value a b s) as [-> _], (dot_value a a s) as [-> _],
             (dot_value b b s) as [-> _]. cbn. apply cauchy_schwarz. }
  assert (Hl : 0 < la * lb) by (apply Rmult_lt_0_compat; lra).
  assert (Hq : -1 <= p / (la * lb) <= 1).
  { assert (Hp : - (la * lb) <= p <= la * lb) by (split; nra).
    split.
    - apply Rmult_le_reg_r with (la * lb); [exact Hl | ].
      unfold Rdiv. rewrite Rmult_assoc, Rinv_l by lra. lra.
    - apply Rmult_le_reg_r with (la * lb); [exact Hl | ].
      unfold Rdiv. rewrite Rmult_assoc, Rinv_l by lra. lra. }
  assert (Hang : result (Vec3d.angle acos a b) s = acos (p / (la * lb))).
  { destruct (angle_exact a b s) as [Hang _]. apply Hang. fold la lb. lra. }
  split; [exact Hq | ]. rewrite Hang. split; [apply acos_bound | ].
  rewrite cos_acos by exact Hq. field. lra.
Qed.

(** (3, 0, 4) against itself. *)
Lemma angle_is_the_angle_witness :
  result (Vec3d.length (Obj 0%nat)) exact345 <> 0
  /\ 0 <= result (Vec3d.angle acos (Obj 0%nat) (Obj 0%nat)) exact345 <= PI.
Proof.
  assert (Hlen : result (Vec3d.length (Obj 0%nat)) exact345 <> 0).
  { destruct (length_value (Obj 0%nat) exact345) as [-> _]. cbn.
    intros Hs. apply sqrt_eq_0 in Hs; lra. }
  split; [exact Hlen | ].
  exact (proj1 (proj2 (angle_is_the_angle (Obj 0%nat) (Obj 0%nat) exact345 Hlen Hlen))).
Defined.

End Symmetry.

(** ** Rotation *)

Section Rotation.
Local Open Scope R_scope.

(** What [rotateBy] returns, component by component; it only reads. *)
Lemma rotateBy_value (v k : cref R) (theta : R) (s : state R) :
  result (Vec3d.rotateBy cos sin v k theta) s
  = mkVec3d
      (_vec0 (deref v s) * cos theta
       + _vec0 (deref k s) * ((1 - cos theta) * result (Vec3d.dot v k) s)
       - _vec0 (result (Vec3d.cross v k) s) * sin theta)
      (_vec1 (deref v s) * cos theta
       + _vec1 (deref k s) * ((1 - cos theta) * result (Vec3d.dot v k) s)
       - _vec1 (result (Vec3d.cross v k) s) * sin theta)
      (_vec2 (deref v s) * cos theta
       + _vec2 (deref k s) * ((1 - cos theta) * result (Vec3d.dot v k) s)
       - _vec2 (result (Vec3d.cross v k) s) * sin theta)
  /\ after (Vec3d.rotateBy cos sin v k theta) s = s.
Proof. run_more. destruct v, k; cbn; split; reflexivity. Qed.

(** X13: in exact arithmetic a rotation by the angle 0 returns the vector
    itself, about any axis, normalized or not. *)
Theorem rotateBy_zero_is_identity (v k : cref R) (s : state R) :
  result (Vec3d.rotateBy cos sin v k 0) s = deref v s.
Proof.
  destruct (rotateBy_value v k 0 s) as [-> _]. rewrite cos_0, sin_0.
  destruct (deref v s) as [x y z]. cbn. f_equal; ring.
Qed.

(** X14: in exact arithmetic, about an axis of length 1, [rotateBy] keeps the
    squared length of the vector and its inner product with the axis, leaves
    the axis itself where it is, and two rotations in a row are the rotation
    by the sum of the angles. *)
Theorem rotateBy_about_unit_axis (v k : cref R) (theta phi : R) (s : state R) :
  result (Vec3d.dot k k) s = 1 ->
  result (r <- Vec3d.rotateBy cos sin v k theta ;; Vec3d.dot (Tmp r) (Tmp r)) s
  = result (Vec3d.dot v v) s
  /\ result (r <- Vec3d.rotateBy cos sin v k theta ;; Vec3d.dot (Tmp r) k) s
     = result (Vec3d.dot v k) s
  /\ result (Vec3d.rotateBy cos sin k k theta) s = deref k s
  /\ result (r <- Vec3d.rotateBy cos sin v k theta ;;
             Vec3d.rotateBy cos sin (Tmp r) k phi) s
     = result (Vec3d.rotateBy cos sin v k (theta + phi)) s.
Proof.
  assert (Hcs := sin2_cos2 theta). unfold Rsqr in Hcs.
  run_more.
  destruct v as [lv | [x y z]], k as [lk | [kx ky kz]];
    try destruct (mem s lv) as [x y z]; try destruct (mem s lk) as [kx ky kz];
    cbn; intros HK; rewrite ?cos_plus, ?sin_plus;
    (split; [ | split; [ | split]]);
    try match goal with
        | |- {| _vec0 := _ |} = _ => f_equal
        end;
    match goal with
    | |- ?lhs = ?rhs =>
        first
          [ unit_axis lhs rhs HK Hcs (kx * kx + ky * ky + kz * kz)
              (sin theta * sin theta * (x * x + y * y + z * z)
               + (x * kx + y * ky + z * kz) * (x * kx + y * ky + z * kz)
                 * (1 - cos theta) * (1 - cos theta))
              (x * x + y * y + z * z
               - (x * kx + y * ky + z * kz) * (x * kx + y * ky + z * kz))
          | unit_axis lhs rhs HK Hcs (kx * kx + ky * ky + kz * kz)
              ((1 - cos theta) * (x * kx + y * ky + z * kz)) 0
          | unit_axis lhs rhs HK Hcs (kx * kx + ky * ky + kz * kz)
              (kx * (1 - cos theta)) 0
          | unit_axis lhs rhs HK Hcs (kx * kx + ky * ky + kz * kz)
              (ky * (1 - cos theta)) 0
          | unit_axis lhs rhs HK Hcs (kx * kx + ky * ky + kz * kz)
              (kz * (1 - cos theta)) 0
          | unit_axis lhs rhs HK Hcs (kx * kx + ky * ky + kz * kz)
              ((1 - cos phi) * (1 - cos theta) * (x * kx + y * ky + z * kz) * kx
               - sin theta * sin phi * x) 0
          | unit_axis lhs rhs HK Hcs (kx * kx + ky * ky + kz * kz)
              ((1 - cos phi) * (1 - cos theta) * (x * kx + y * ky + z * kz) * ky
               - sin theta * sin phi * y) 0
          | unit_axis lhs rhs HK Hcs (kx * kx + ky * ky + kz * kz)
              ((1 - cos phi) * (1 - cos theta) * (x * kx + y * ky + z * kz) * kz
               - sin theta * sin phi * z) 0 ]
    end.
Qed.

(** (3, 0, 4) about the unit axis (0, 0, 1), by the angles 1 and 2. *)
Lemma rotateBy_about_unit_axis_witness :
  result (Vec3d.dot (Obj 1%nat) (Obj 1%nat)) exact_axis = 1
  /\ result (r <- Vec3d.rotateBy cos sin (Obj 0%nat) (Obj 1%nat) 1 ;;
             Vec3d.dot (Tmp r) (Tmp r)) exact_axis
     = result (Vec3d.dot (Obj 0%nat) (Obj 0%nat)) exact_axis.
Proof.
  assert (Hk : result (Vec3d.dot (Obj 1%nat) (Obj 1%nat)) exact_axis = 1)
    by (run; cbn; ring).
  split; [exact Hk | ].
  exact (proj1 (rotateBy_about_unit_axis (Obj 0%nat) (Obj 1%nat) 1 2 exact_axis Hk)).
Defined.

(** The axis has to be normalized: about itself by the angle PI, the axis
    (0, 0, 2) goes to (0, 0, 14). *)
Example rotateBy_axis_not_unit (s : state R) :
  result (Vec3d.rotateBy cos sin (Tmp (mkVec3d 0 0 2)) (Tmp (mkVec3d 0 0 2)) PI) s
  = mkVec3d 0 0 14.
Proof. run_more. cbn. rewrite cos_PI, sin_PI. f_equal; ring. Qed.

End Rotation.

(** ** Component-wise product and quotient *)

Section Componentwise.
Context {D : Type} `{Double D}.

(** [operator/(const Vec3d &)] executes exactly three divisions, by the
    three components of its argument in order, whatever they are, and writes
    to no object. *)
Lemma vector_division_divides_three_times (a b : cref D) (s : state D) :
  divs (after (Vec3d.op_div_vec a b) s)
  = _vec2 (deref b s) :: _vec1 (deref b s) :: _vec0 (deref b s) :: divs s
  /\ mem (after (Vec3d.op_div_vec a b) s) = mem s
  /\ result (Vec3d.op_div_vec a b) s
     = mkVec3d (_vec0 (deref a s) / _vec0 (deref b s))%dbl
               (_vec1 (deref a s) / _vec1 (deref b s))%dbl
               (_vec2 (deref a s) / _vec2 (deref b s))%dbl.
Proof. run. destruct a, b; cbn; repeat split. Qed.

End Componentwise.

(** X15: in exact arithmetic, when no component of [w] is zero, dividing the
    component-wise product [v * w] by [w] gives [v] back. *)
Theorem vector_division_undoes_product (v w : cref R) (s : state R) :
  _vec0 (deref w s) <> 0%R ->
  _vec1 (deref w s) <> 0%R ->
  _vec2 (deref w s) <> 0%R ->
  result (p <- Vec3d.op_mul_vec v w ;; Vec3d.op_div_vec (Tmp p) w) s = deref v s.
Proof.
  run. destruct v as [lv | [x y z]], w as [lw | [a b c]]; cbn; intros H0 H1 H2;
    try destruct (mem s lv) as [x y z]; cbn; f_equal; field; assumption.
Qed.

(** (3, 0, 4) times (1, 2, 4), divided by (1, 2, 4). *)
Lemma vector_division_undoes_product_witness :
  (_vec0 (deref (Tmp (mkVec3d 1 2 4)) exact345) <> 0
   /\ result (p <- Vec3d.op_mul_vec (Obj 0%nat) (Tmp (mkVec3d 1 2 4)) ;;
              Vec3d.op_div_vec (Tmp p) (Tmp (mkVec3d 1 2 4))) exact345
      = mkVec3d 3 0 4)%R.
Proof.
  assert (H0 : (_vec0 (deref (Tmp (mkVec3d 1 2 4)) exact345) <> 0)%R) by (cbn; lra).
  assert (H1 : (_vec1 (deref (Tmp (mkVec3d 1 2 4)) exact345) <> 0)%R) by (cbn; lra).
  assert (H2 : (_vec2 (deref (Tmp (mkVec3d 1 2 4)) exact345) <> 0)%R) by (cbn; lra).
  split; [exact H0 | ].
  exact (vector_division_undoes_product (Obj 0%nat) (Tmp (mkVec3d 1 2 4))%R exact345 H0 H1 H2).
Defined.

(** ** Accessors *)

Section Accessors.
Context {D : Type} `{Double D}.

(** The subscripts inside [_vec] are 0, 1 and 2. *)
Lemma subscript_in_range (i : Z) :
  (0 <= i < 3)%Z -> exists k, Vec3d.subscript i = Some k.
Proof.
  intros Hi.
  assert (Hc : i = 0%Z \/ i = 1%Z \/ i = 2%Z) by lia.
  destruct Hc as [-> | [-> | ->]]; eexists; reflexivity.
Qed.

Lemma subscript_injective (i j : Z) (k : idx) :
  Vec3d.subscript i = Some k -> Vec3d.subscript j = Some k -> i = j.
Proof.
  destruct i as [ | [ [ | | ] | [ | | ] | ] | ]; cbn; try discriminate;
    destruct j as [ | [ [ | | ] | [ | | ] | ] | ]; cbn; try discriminate;
    congruence.
Qed.

(** X16: for subscripts [i] and [j] between 0 and 2, after [v[i] = x] the
    read [v[j]] gives [x] when [j] is [i] and what it gave before otherwise,
    and no other object is touched; a subscript outside 0..2 refers to no
    component. *)
Theorem subscript_write_then_read (this : loc) (i j : Z) (x : D) (s : state D) :
  (0 <= i < 3)%Z ->
  (0 <= j < 3)%Z ->
  (exists r, Vec3d.op_index_ref this i = Some r
     /\ result (Vec3d.op_index (Obj this) j) (after (Vec3d.assign_ref r x) s)
        = (if Z.eqb i j then Some x else result (Vec3d.op_index (Obj this) j) s)
     /\ forall l, l <> this -> mem (after (Vec3d.assign_ref r x) s) l = mem s l)
  /\ (forall n : Z, (n < 0 \/ 2 < n)%Z ->
        Vec3d.op_index_ref this n = None
        /\ result (Vec3d.op_index (Obj this) n) s = None).
Proof.
  intros Hi Hj. split.
  - destruct (subscript_in_range Hi) as [ki Hki], (subscript_in_range Hj) as [kj Hkj].
    exists (this, ki). unfold Vec3d.op_index_ref, Vec3d.op_index. rewrite Hki, Hkj.
    split; [reflexivity | ]. split.
    + destruct (Z.eqb_spec i j) as [-> | Hne].
      * assert (ki = kj) by congruence. subst kj.
        run_more. cbn. store. destruct ki; reflexivity.
      * assert (ki <> kj) by (intros ->; apply Hne; eapply subscript_injective; eassumption).
        run_more. cbn. store. destruct ki, kj; try reflexivity; congruence.
    + intros l Hl. apply Nat.eqb_neq in Hl. run_more. cbn. store. reflexivity.
  - intros n Hn. unfold Vec3d.op_index_ref, Vec3d.op_index.
    assert (Hs : Vec3d.subscript n = None).
    { destruct n as [ | [ [ | | ] | [ | | ] | ] | ]; cbn; try reflexivity; lia. }
    rewrite Hs. split; reflexivity.
Qed.

(** X17: for an array of at least three elements, [setValue] on the array
    stores its first three elements, which [getValue] then hands back; the
    array constructor leaves the same store; no other object is touched.  On
    a shorter array both read past its end. *)
Theorem array_write_then_read (this : loc) (v : list D) (s : state D) :
  (3 <= List.length v ->
   result (Vec3d.setValue_array this v) s = Some tt
   /\ result (Vec3d.getValue (Obj this)) (after (Vec3d.setValue_array this v) s)
      = (nth 0 v d0, nth 1 v d0, nth 2 v d0)
   /\ mem (after (Vec3d.ctor_array (fun e => e) v this) s)
      = mem (after (Vec3d.setValue_array this v) s)
   /\ forall l, l <> this -> mem (after (Vec3d.setValue_array this v) s) l = mem s l)
  /\ (List.length v < 3 ->
      result (Vec3d.setValue_array this v) s = None
      /\ result (Vec3d.ctor_array (fun e => e) v this) s = None).
Proof.
  split.
  - destruct v as [ | x [ | y [ | z rest]]]; cbn [List.length]; try lia. intros _.
    run_more. cbn. store. repeat split.
    intros l Hl. apply Nat.eqb_neq in Hl. store. reflexivity.
  - destruct v as [ | x [ | y [ | z rest]]]; cbn [List.length]; try lia; intros _;
      run_more; cbn; split; reflexivity.
Qed.

End Accessors.

(** In binary64, at (3, 0, 4): after [v[1] = 7], [v[1]] reads 7. *)
Lemma subscript_write_then_read_witness :
  (0 <= 1 < 3)%Z
  /\ exists r, Vec3d.op_index_ref 0 1 = Some r
     /\ result (Vec3d.op_index (Obj 0) 1) (after (Vec3d.assign_ref r 7%float) b345)
        = Some 7%float.
Proof.
  assert (H1 : (0 <= 1 < 3)%Z) by lia.
  split; [exact H1 | ].
  destruct (proj1 (subscript_write_then_read 0 7%float b345 H1 H1)) as (r & Hr & Hread & _).
  exists r. split; [exact Hr | exact Hread].
Defined.

(** In binary64: the array 1, 2, 3, 4 stored into the object at address 0. *)
Lemma array_write_then_read_witness :
  3 <= List.length [1%float; 2%float; 3%float; 4%float]
  /\ result (Vec3d.getValue (Obj 0))
       (after (Vec3d.setValue_array 0 [1%float; 2%float; 3%float; 4%float]) b345)
     = (1%float, 2%float, 3%float).
Proof.
  assert (Hlen : 3 <= List.length [1%float; 2%float; 3%float; 4%float]) by (cbn; lia).
  split; [exact Hlen | ].
  destruct (proj1 (array_write_then_read (D := float) 0
                     [1%float; 2%float; 3%float; 4%float] b345) Hlen)
    as (_ & Hget & _).
  exact Hget.
Defined.

(** ** Output *)

Lemma append_comma_split (a a' r r' : string) :
  no_comma a -> no_comma a' ->
  (a ++ "," ++ r = a' ++ "," ++ r')%string -> a = a' /\ r = r'.
Proof.
  revert a'. induction a as [ | ch a IH]; intros [ | ch' a']; cbn.
  - intros _ _ E. injection E as E. now split.
  - intros _ [Hch _] E. injection E as E1 E2. congruence.
  - intros [Hch _] _ E. injection E as E1 E2. congruence.
  - intros [_ Ha] [_ Ha'] E. injection E as E1 E2.
    destruct (IH a' Ha Ha' E2) as [-> ->]. now subst.
Qed.

Lemma append_paren_cancel (c c' : string) :
  (c ++ ")" = c' ++ ")")%string -> c = c'.
Proof.
  revert c'. induction c as [ | ch c IH]; intros [ | ch' c']; cbn; intros E.
  - reflexivity.
  - injection E as E1 E2. destruct c'; discriminate.
  - injection E as E1 E2. destruct c; discriminate.
  - injection E as E1 E2. f_equal; [exact E1 | now apply IH].
Qed.

Lemma string_app_assoc (a b c : string) :
  ((a ++ b) ++ c = a ++ (b ++ c))%string.
Proof. induction a as [ | ch a IH]; cbn; [reflexivity | now rewrite IH]. Qed.

Section Output.
Context {D : Type} `{Double D}.
Variable show : D -> string.

(** X18: on a stream that holds the text written so far and nothing else,
    and formats a [double] by [show], [operator<<] leaves the text it found
    followed by ["("], the three components as [show] formats them,
    separated by [","], and [")"]; it changes no object.  When [show] never
    produces a comma, two vectors with the same rendering have the same
    three component texts. *)
Theorem output_is_unambiguous (a : cref D) (os : string) (s : state D) :
  result (Vec3d.op_out plain_text (plain_double show) os a) s
  = (os ++ "(" ++ show (_vec0 (deref a s)) ++ "," ++ show (_vec1 (deref a s))
        ++ "," ++ show (_vec2 (deref a s)) ++ ")")%string
  /\ after (Vec3d.op_out plain_text (plain_double show) os a) s = s
  /\ ((forall d, no_comma (show d)) ->
      forall b : cref D,
        result (Vec3d.op_out plain_text (plain_double show) EmptyString a) s
        = result (Vec3d.op_out plain_text (plain_double show) EmptyString b) s ->
        show (_vec0 (deref a s)) = show (_vec0 (deref b s))
        /\ show (_vec1 (deref a s)) = show (_vec1 (deref b s))
        /\ show (_vec2 (deref a s)) = show (_vec2 (deref b s))).
Proof.
  assert (Happ : forall (t : string) (r : cref D),
             result (Vec3d.op_out plain_text (plain_double show) t r) s
             = (t ++ "(" ++ show (_vec0 (deref r s)) ++ "," ++ show (_vec1 (deref r s))
                  ++ "," ++ show (_vec2 (deref r s)) ++ ")")%string).
  { intros t r. run_more. unfold plain_text, plain_double.
    destruct r; cbn; now rewrite !string_app_assoc. }
  split; [apply Happ | split].
  - run_more. destruct a; reflexivity.
  - intros Hshow b. rewrite !Happ. cbn. intros E. injection E as E.
    apply append_comma_split in E; [ | apply Hshow | apply Hshow ].
    destruct E as [E0 E].
    apply append_comma_split in E; [ | apply Hshow | apply Hshow ].
    destruct E as [E1 E]. apply append_paren_cancel in E. auto.
Qed.

End Output.

(** In binary64, with a formatting that only prints the sign. *)
Lemma output_is_unambiguous_witness :
  (forall d : float, no_comma ((fun x => if (x <? 0)%float then "-" else "+")%string d))
  /\ result (Vec3d.op_out plain_text
               (plain_double (fun x => if (x <? 0)%float then "-" else "+")%string)
               "v = "%string (Obj 0)) two_vectors
     = "v = (+,+,+)"%string.
Proof.
  assert (Hshow : forall d : float,
             no_comma ((fun x => if (x <? 0)%float then "-" else "+")%string d)).
  { intros d. cbn. destruct (d <? 0)%float; cbn; split; [discriminate | exact I | discriminate | exact I]. }
  split; [exact Hshow | ].
  exact (proj1 (output_is_unambiguous (fun x => if (x <? 0)%float then "-" else "+")%string
                  (Obj 0) "v = "%string two_vectors)).
Defined.

(** ** The loop of [main] and the loop of [prep] *)

(** X19: given more turns than there are reads, the loop of [main] ends with
    status 0 and has handed to [setExpr] exactly the lines read before the
    first read that has [eof] set or is ["quit"] or ["q"]; later lines, and a
    line read together with the end of input, are never submitted. *)
Theorem main_loop_submits_until_quit (fuel : nat) (cin : list (string * bool)) :
  List.length cin < fuel ->
  main_loop fuel cin = Some (submitted_lines cin, 0%Z).
Proof.
  revert fuel. induction cin as [ | [line eof] rest IH]; intros [ | fuel] Hfuel;
    cbn [List.length] in Hfuel; try lia.
  - reflexivity.
  - cbn [main_loop submitted_lines]. unfold main_turn.
    destruct eof; [reflexivity | ]. cbn [orb].
    unfold quit. destruct (String.eqb line "quit" || String.eqb line "q")%bool.
    + reflexivity.
    + rewrite IH by lia. reflexivity.
Qed.

(** Three reads, the second one ["quit"]. *)
Lemma main_loop_submits_until_quit_witness :
  List.length [("a + b"%string, false); ("quit"%string, false); ("c"%string, false)] < 4
  /\ main_loop 4 [("a + b"%string, false); ("quit"%string, false); ("c"%string, false)]
     = Some (["a + b"%string], 0%Z).
Proof.
  assert (Hfuel : List.length [("a + b"%string, false); ("quit"%string, false);
                               ("c"%string, false)] < 4) by (cbn; lia).
  split; [exact Hfuel | ].
  exact (main_loop_submits_until_quit
           [("a + b"%string, false); ("quit"%string, false); ("c"%string, false)] Hfuel).
Defined.

Section PrepLoop.
Variable SeExprType : Type.
Variable SeExprVarEnv : Type.
Variable SeExprFuncNode : Type.
Variable isValid : SeExprType -> bool.
Variable numChildren : SeExprFuncNode -> nat.
Variable isStrArg : SeExprFuncNode -> nat -> bool.
(** A child's [prep], split into the type it returns and what it does to the
    environment. *)
Variable ty : SeExprFuncNode -> nat -> bool -> SeExprType.
Variable step : SeExprFuncNode -> nat -> bool -> SeExprVarEnv -> SeExprVarEnv.

Lemma prep_turns (node : SeExprFuncNode) (l : list nat) (valid : bool) (env : SeExprVarEnv) :
  fold_left
    (PatternExpr.prep_turn isValid isStrArg (fun n i w e => (ty n i w, step n i w e)) node)
    l (valid, env)
  = (valid && forallb (fun i => isValid (ty node i false))
                      (filter (fun i => negb (isStrArg node i)) l),
     fold_left (fun e i => step node i false e)
               (filter (fun i => negb (isStrArg node i)) l) env)%bool.
Proof.
  revert valid env. induction l as [ | i l IH]; intros valid env; cbn.
  - now rewrite andb_true_r.
  - destruct (isStrArg node i); cbn; rewrite IH; [reflexivity | ].
    now rewrite andb_assoc.
Qed.

(** X20: the loop of [prep] prepares the children that are not tag
    arguments, each once, in order and with [wantScalar] false, and no tag
    argument; [valid] ends as the conjunction of their validity; [prep]
    returns [wanted] with the environment those calls leave. *)
Theorem prep_prepares_expression_children (this : PatternExpr.DummyFuncX)
  (node : SeExprFuncNode) (wanted : SeExprType) (env : SeExprVarEnv) :
  PatternExpr.prep_loop isValid numChildren isStrArg
    (fun n i w e => (ty n i w, step n i w e)) node env
  = (forallb (fun i => isValid (ty node i false)) (expr_children numChildren isStrArg node),
     fold_left (fun e i => step node i false e) (expr_children numChildren isStrArg node) env)
  /\ PatternExpr.prep isValid numChildren isStrArg
       (fun n i w e => (ty n i w, step n i w e)) this node wanted env
     = (wanted,
        fold_left (fun e i => step node i false e) (expr_children numChildren isStrArg node) env).
Proof.
  assert (Hloop := prep_turns node (seq 0 (numChildren node)) true env).
  cbn [andb] in Hloop. fold (expr_children numChildren isStrArg node) in Hloop.
  split.
  - exact Hloop.
  - unfold PatternExpr.prep. unfold PatternExpr.prep_loop. now rewrite Hloop.
Qed.

End PrepLoop.

(** A call with three children of which the second is a tag argument, the
    environment being the record of the calls made: children 0 and 2 are
    prepared, in that order, with [wantScalar] false. *)
Example prep_skips_tag_arguments :
  PatternExpr.prep (fun t : bool => t) (fun _ : unit => 3) (fun _ i => Nat.eqb i 1)
    (fun _ i w calls => (true, calls ++ [(i, w)]))
    (PatternExpr.mkDummyFuncX false) tt false []
  = (false, [(0, false); (2, false)]).
Proof. reflexivity. Qed.
